(** * MDCDialogFoundation: the dialog controller of packages/mdc-dialog/foundation.js

    A shallow embedding of the foundation class and of the part of the
    browser it talks to (the injected adapter, [setTimeout]/[clearTimeout],
    [requestAnimationFrame]), followed by the properties of its open/close
    life cycle.

    Every method of the class is a computation in a small state monad over
    a [World]: the fields of the foundation object, the adapter's own
    state, the host's timer table and frame queue, and the trace of the
    effects performed so far. *)

From Stdlib Require Import ZArith List Bool Lia.
From stdpp Require Import base decidable strings gmap list.
Import ListNotations.
Open Scope Z_scope.
Open Scope string_scope.
Open Scope list_scope.

(** ** JavaScript values that cross the adapter boundary *)

(** The values the foundation receives from the adapter or from an event
    object, and hands back as the close action. Numbers are the integral
    ones (key codes). *)
Inductive JSValue :=
| JUndefined
| JNull
| JBool (b : bool)
| JNum (n : Z)
| JStr (s : string).

#[global] Instance JSValue_eq_dec : EqDecision JSValue.
Proof. solve_decision. Defined.

(** [if (v)]: ToBoolean. *)
Definition truthy (v : JSValue) : bool :=
  match v with
  | JUndefined | JNull => false
  | JBool b => b
  | JNum n => negb (Z.eqb n 0)
  | JStr s => negb (String.eqb s "")
  end.

(** [a === b] on these values. *)
Definition strict_eq (a b : JSValue) : bool := bool_decide (a = b).

(** ** Closures *)

(** The three arrow functions the constructor evaluates (lines 85-87). *)
Inductive ListenerBody :=
| CallHandleDialogClick      (* (evt) => this.handleDialogClick_(evt) *)
| CallHandleWindowResize     (* () => this.handleWindowResize_() *)
| CallHandleDocumentKeyDown. (* (evt) => this.handleDocumentKeyDown_(evt) *)

#[global] Instance ListenerBody_eq_dec : EqDecision ListenerBody.
Proof. solve_decision. Defined.

(** A function object: its identity (what [removeEventListener] compares)
    and its code. *)
Record EventListener := mkListener {
  listener_id : nat;
  listener_body : ListenerBody
}.

#[global] Instance EventListener_eq_dec : EqDecision EventListener.
Proof. solve_decision. Defined.

(** The callbacks handed to [setTimeout] by [open] (lines 117-121) and by
    [close] (lines 140-143); the latter captures [action]. *)
Inductive TimerCallback :=
| OpenTimerEnd
| CloseTimerEnd (action : JSValue).

#[global] Instance TimerCallback_eq_dec : EqDecision TimerCallback.
Proof. solve_decision. Defined.

(** The callback handed to [requestAnimationFrame] by [layout]
    (lines 151-154). *)
Inductive FrameCallback :=
| LayoutFrame.

#[global] Instance FrameCallback_eq_dec : EqDecision FrameCallback.
Proof. solve_decision. Defined.

(** ** Events *)

(** The properties of an event object the foundation reads. A property
    that a (synthetic) event lacks is [JUndefined]. *)
Record Event := mkEvent {
  target : JSValue;
  key : JSValue;
  keyCode : JSValue
}.

#[global] Instance Event_eq_dec : EqDecision Event.
Proof. solve_decision. Defined.

(** ** The adapter interface (MDCDialogAdapter) *)

(** One constructor per adapter method the foundation calls, with the
    arguments of the call. *)
Inductive AdapterCall :=
| addClass (className : string)
| removeClass (className : string)
| addBodyClass (className : string)
| removeBodyClass (className : string)
| registerInteractionHandler (eventName : string) (handler : EventListener)
| deregisterInteractionHandler (eventName : string) (handler : EventListener)
| registerDocumentHandler (eventName : string) (handler : EventListener)
| deregisterDocumentHandler (eventName : string) (handler : EventListener)
| registerWindowHandler (eventName : string) (handler : EventListener)
| deregisterWindowHandler (eventName : string) (handler : EventListener)
| computeBoundingRect
| trapFocus
| releaseFocus
| isContentScrollable
| areButtonsStacked
| getActionFromEvent (evt : Event)
| notifyOpening
| notifyOpened
| notifyClosing (action : JSValue)
| notifyClosed (action : JSValue).

#[global] Instance AdapterCall_eq_dec : EqDecision AdapterCall.
Proof. solve_decision. Defined.

(** ** Effects *)

(** What the foundation does, in program order: writes to its two mutable
    fields, adapter calls and host calls. [TimerFired] and [FrameRun] are
    written by the host's event loop when it starts a callback. *)
Inductive Effect :=
| Write_isOpen_ (b : bool)
| Write_animationTimer_ (id : Z)
| Adapter (c : AdapterCall)
| ClearTimeout (id : Z)
| SetTimeout (cb : TimerCallback) (ms : Z) (id : Z)
| RequestAnimationFrame (cb : FrameCallback)
| TimerFired (id : Z)
| FrameRun (cb : FrameCallback).

#[global] Instance Effect_eq_dec : EqDecision Effect.
Proof. solve_decision. Defined.

(** ** Constants (./constants, imported on line 26) *)

(** The three tables of ./constants, with the entries the foundation
    reads. The methods below take the tables as parameters: nothing
    depends on the class names, the durations or the action strings,
    except where a statement says so. *)

Record CssClasses := mkCssClasses {
  OPENING : string;
  OPEN : string;
  CLOSING : string;
  SCROLL_LOCK : string;
  STACKED : string;
  SCROLLABLE : string
}.

Record Numbers := mkNumbers {
  DIALOG_ANIMATION_OPEN_TIME_MS : Z;
  DIALOG_ANIMATION_CLOSE_TIME_MS : Z
}.

Record Strings := mkStrings {
  DESTROY_ACTION : string;
  ESCAPE_ACTION : string
}.

(** ** The world *)

(** The fields of a foundation object. *)
Record Foundation := mkFoundation {
  isOpen_ : bool;
  animationTimer_ : Z;
  dialogClickHandler_ : EventListener;
  windowResizeHandler_ : EventListener;
  documentKeyDownHandler_ : EventListener
}.

(** A pending timer of the host. *)
Record Timer := mkTimer {
  timer_id : Z;
  timer_due : Z;
  timer_callback : TimerCallback
}.

#[global] Instance Timer_eq_dec : EqDecision Timer.
Proof. solve_decision. Defined.

(** The host: clock (ms), next timer handle, pending timers in the order
    they were set, and the animation-frame callback list. *)
Record Host := mkHost {
  now : Z;
  nextTimerId : Z;
  timers : list Timer;
  frames : list FrameCallback
}.

Record World (A : Type) := mkWorld {
  this : Foundation;
  adapter_ : A;
  host : Host;
  trace : list Effect
}.

Arguments mkWorld {A} _ _ _ _.
Arguments this {A} _.
Arguments adapter_ {A} _.
Arguments host {A} _.
Arguments trace {A} _.

(** ** The state monad of the methods *)

Section MDCDialogFoundation.

Context {A : Type}.

(** The injected adapter: each method maps the adapter's state to the
    value it returns and its next state. Adapter methods are synchronous
    and do not call back into the foundation. *)
Variable adapter : AdapterCall -> A -> JSValue * A.

Variable cssClasses : CssClasses.
Variable numbers : Numbers.
Variable strings : Strings.

Definition M (X : Type) : Type := World A -> X * World A.

Definition ret {X} (x : X) : M X := fun w => (x, w).

Definition bind {X Y} (c : M X) (k : X -> M Y) : M Y :=
  fun w => k (fst (c w)) (snd (c w)).

Declare Scope M_scope.
Delimit Scope M_scope with M.
Bind Scope M_scope with M.
Notation "x <- c ;; k" := (bind c (fun x => k))
  (at level 20, c at level 99, k at level 200, only parsing) : M_scope.
Notation "c ;; k" := (bind c (fun _ => k))
  (at level 100, k at level 200, only parsing, right associativity) : M_scope.
Local Open Scope M_scope.

Definition emit (e : Effect) : M unit :=
  fun w => (tt, mkWorld (this w) (adapter_ w) (host w) (trace w ++ [e])).

(** [this.f] *)
Definition get {X} (f : Foundation -> X) : M X :=
  fun w => (f (this w), w).

(** [this.isOpen_ = b] *)
Definition write_isOpen_ (b : bool) : M unit :=
  fun w =>
    let f := this w in
    (tt, mkWorld
           (mkFoundation b (animationTimer_ f) (dialogClickHandler_ f)
              (windowResizeHandler_ f) (documentKeyDownHandler_ f))
           (adapter_ w) (host w) (trace w ++ [Write_isOpen_ b])).

(** [this.animationTimer_ = id] *)
Definition write_animationTimer_ (id : Z) : M unit :=
  fun w =>
    let f := this w in
    (tt, mkWorld
           (mkFoundation (isOpen_ f) id (dialogClickHandler_ f)
              (windowResizeHandler_ f) (documentKeyDownHandler_ f))
           (adapter_ w) (host w) (trace w ++ [Write_animationTimer_ id])).

(** [this.adapter_.m(args)], for its value. *)
Definition call (c : AdapterCall) : M JSValue :=
  fun w =>
    (fst (adapter c (adapter_ w)),
     mkWorld (this w) (snd (adapter c (adapter_ w))) (host w)
       (trace w ++ [Adapter c])).

(** [this.adapter_.m(args);] as a statement. *)
Definition call_ (c : AdapterCall) : M unit := call c ;; ret tt.

(** ** The host's timers and animation frames *)

Fixpoint remove_timer (id : Z) (l : list Timer) : list Timer :=
  match l with
  | [] => []
  | t :: r => if Z.eqb (timer_id t) id then remove_timer id r
              else t :: remove_timer id r
  end.

(** [clearTimeout(id)]: drops the timer with that handle, if any. *)
Definition clearTimeout (id : Z) : M unit :=
  fun w =>
    let h := host w in
    (tt, mkWorld (this w) (adapter_ w)
           (mkHost (now h) (nextTimerId h) (remove_timer id (timers h)) (frames h))
           (trace w ++ [ClearTimeout id])).

(** [setTimeout(cb, ms)]: a fresh handle; the callback is due [ms] from
    now (a negative delay counts as zero). *)
Definition setTimeout (cb : TimerCallback) (ms : Z) : M Z :=
  fun w =>
    let h := host w in
    let id := nextTimerId h in
    (id, mkWorld (this w) (adapter_ w)
           (mkHost (now h) (id + 1)
              (timers h ++ [mkTimer id (now h + Z.max 0 ms) cb]) (frames h))
           (trace w ++ [SetTimeout cb ms id])).

(** [requestAnimationFrame(cb)]: queued for the next frame. *)
Definition requestAnimationFrame (cb : FrameCallback) : M unit :=
  fun w =>
    let h := host w in
    (tt, mkWorld (this w) (adapter_ w)
           (mkHost (now h) (nextTimerId h) (timers h) (frames h ++ [cb]))
           (trace w ++ [RequestAnimationFrame cb])).

(** ** The methods of MDCDialogFoundation *)

(** The default adapter: every method does nothing and returns
    [undefined] (lines 41-65). *)
Definition defaultAdapter {S : Type} (c : AdapterCall) (s : S) : JSValue * S :=
  (JUndefined, s).

(** The host before the page has set any timer. *)
Definition host0 : Host := mkHost 0 1 [] [].

(** The fields as the constructor leaves them (lines 77-87): closed, no
    timer, and one new function object per arrow function. *)
Definition new_foundation : Foundation :=
  mkFoundation false 0
    (mkListener 0 CallHandleDialogClick)
    (mkListener 1 CallHandleWindowResize)
    (mkListener 2 CallHandleDocumentKeyDown).

(** [new MDCDialogFoundation(adapter)], the adapter starting in state [a]. *)
Definition constructor (a : A) : World A :=
  mkWorld new_foundation a host0 [].

Definition handleAnimationTimerEnd_ : M unit :=
  call_ (removeClass (OPENING cssClasses)) ;;
  call_ (removeClass (CLOSING cssClasses)).

Definition layout : M unit :=
  requestAnimationFrame LayoutFrame.

Definition open : M unit :=
  write_isOpen_ true ;;
  h <- get dialogClickHandler_ ;;
  call_ (registerInteractionHandler "click" h) ;;
  h <- get documentKeyDownHandler_ ;;
  call_ (registerDocumentHandler "keydown" h) ;;
  h <- get windowResizeHandler_ ;;
  call_ (registerWindowHandler "resize" h) ;;
  h <- get windowResizeHandler_ ;;
  call_ (registerWindowHandler "orientationchange" h) ;;
  call_ (addClass (OPENING cssClasses)) ;;
  call_ computeBoundingRect ;;
  call_ (addClass (OPEN cssClasses)) ;;
  call_ (addBodyClass (SCROLL_LOCK cssClasses)) ;;
  call_ notifyOpening ;;
  layout ;;
  t <- get animationTimer_ ;;
  clearTimeout t ;;
  id <- setTimeout OpenTimerEnd (DIALOG_ANIMATION_OPEN_TIME_MS numbers) ;;
  write_animationTimer_ id.

Definition close (action : JSValue) : M unit :=
  write_isOpen_ false ;;
  h <- get dialogClickHandler_ ;;
  call_ (deregisterInteractionHandler "click" h) ;;
  h <- get documentKeyDownHandler_ ;;
  call_ (deregisterDocumentHandler "keydown" h) ;;
  h <- get windowResizeHandler_ ;;
  call_ (deregisterWindowHandler "resize" h) ;;
  h <- get windowResizeHandler_ ;;
  call_ (deregisterWindowHandler "orientationchange" h) ;;
  call_ releaseFocus ;;
  call_ (addClass (CLOSING cssClasses)) ;;
  call_ (removeClass (OPEN cssClasses)) ;;
  call_ (removeBodyClass (SCROLL_LOCK cssClasses)) ;;
  call_ (notifyClosing action) ;;
  t <- get animationTimer_ ;;
  clearTimeout t ;;
  id <- setTimeout (CloseTimerEnd action) (DIALOG_ANIMATION_CLOSE_TIME_MS numbers) ;;
  write_animationTimer_ id.

Definition destroy : M unit :=
  o <- get isOpen_ ;;
  (if o then close (JStr (DESTROY_ACTION strings)) else ret tt) ;;
  handleAnimationTimerEnd_ ;;
  t <- get animationTimer_ ;;
  clearTimeout t.

Definition isOpen : M bool :=
  get isOpen_.

Definition detectStackedButtons_ : M unit :=
  call_ (removeClass (STACKED cssClasses)) ;;
  r <- call areButtonsStacked ;;
  if truthy r then call_ (addClass (STACKED cssClasses)) else ret tt.

Definition detectScrollableContent_ : M unit :=
  call_ (removeClass (SCROLLABLE cssClasses)) ;;
  r <- call isContentScrollable ;;
  if truthy r then call_ (addClass (SCROLLABLE cssClasses)) else ret tt.

Definition handleDialogClick_ (evt : Event) : M unit :=
  let target := target evt in
  action <- call (getActionFromEvent evt) ;;
  if truthy action then close action else ret tt.

Definition handleWindowResize_ : M unit :=
  layout.

Definition handleDocumentKeyDown_ (evt : Event) : M unit :=
  if strict_eq (key evt) (JStr "Escape") || strict_eq (keyCode evt) (JNum 27)
  then close (JStr (ESCAPE_ACTION strings))
  else ret tt.

(** ** Callbacks run by the host *)

(** The bodies of the two timer callbacks. *)
Definition run_timer_callback (cb : TimerCallback) : M unit :=
  match cb with
  | OpenTimerEnd =>
      handleAnimationTimerEnd_ ;;
      call_ trapFocus ;;
      call_ notifyOpened
  | CloseTimerEnd action =>
      handleAnimationTimerEnd_ ;;
      call_ (notifyClosed action)
  end.

(** The body of the animation-frame callback of [layout]. *)
Definition run_frame_callback (cb : FrameCallback) : M unit :=
  match cb with
  | LayoutFrame =>
      detectStackedButtons_ ;;
      detectScrollableContent_
  end.

(** Calling one of the constructor's closures with an event. *)
Definition run_listener (l : EventListener) (evt : Event) : M unit :=
  match listener_body l with
  | CallHandleDialogClick => handleDialogClick_ evt
  | CallHandleWindowResize => handleWindowResize_
  | CallHandleDocumentKeyDown => handleDocumentKeyDown_ evt
  end.

(** ** The host's event loop *)

(** The host runs the callback of pending timer [t]: the timer leaves the
    table and the clock is at its due time, or later. *)
Definition fire (t : Timer) : M unit :=
  fun w =>
    let h := host w in
    run_timer_callback (timer_callback t)
      (mkWorld (this w) (adapter_ w)
         (mkHost (Z.max (now h) (timer_due t)) (nextTimerId h)
            (remove_timer (timer_id t) (timers h)) (frames h))
         (trace w ++ [TimerFired (timer_id t)])).

(** The pending timer that is due first (the one set first, among equals). *)
Fixpoint earliest (l : list Timer) : option Timer :=
  match l with
  | [] => None
  | t :: r =>
      match earliest r with
      | Some u => if Z.ltb (timer_due u) (timer_due t) then Some u else Some t
      | None => Some t
      end
  end.

Definition next_due (deadline : Z) (l : list Timer) : option Timer :=
  match earliest l with
  | Some t => if Z.leb (timer_due t) deadline then Some t else None
  | None => None
  end.

(** Fires, in due order, the timers due by [deadline]. *)
Fixpoint run_due (fuel : nat) (deadline : Z) (w : World A) : World A :=
  match fuel with
  | O => w
  | S fuel' =>
      match next_due deadline (timers (host w)) with
      | Some t => run_due fuel' deadline (snd (fire t w))
      | None => w
      end
  end.

Definition set_now (t : Z) (w : World A) : World A :=
  let h := host w in
  mkWorld (this w) (adapter_ w)
    (mkHost t (nextTimerId h) (timers h) (frames h)) (trace w).

(** [d] milliseconds pass with the page idle: every timer due in that
    time fires. No timer callback of the foundation sets a timer, so one
    round per pending timer is enough. *)
Definition elapse (d : Z) : M unit :=
  fun w =>
    let deadline := now (host w) + d in
    let w' := run_due (length (timers (host w))) deadline w in
    (tt, set_now (Z.max (now (host w')) deadline) w').

(** The next animation frame: the callbacks requested so far run in
    order. *)
Definition animation_frame : M unit :=
  fun w =>
    let h := host w in
    (tt, fold_left
           (fun w' cb => snd ((emit (FrameRun cb) ;; run_frame_callback cb) w'))
           (frames h)
           (mkWorld (this w) (adapter_ w)
              (mkHost (now h) (nextTimerId h) (timers h) []) (trace w))).

(** ** Executions *)

(** What can happen to a foundation: a call of its public interface, an
    event reaching one of its three listeners, a due timer or an
    animation frame, or time passing. *)
Inductive Input :=
| CallOpen
| CallClose (action : JSValue)
| CallIsOpen
| CallLayout
| CallDestroy
| Dispatch (l : EventListener) (evt : Event)
| Timeout (t : Timer)
| Frame
| Wait (d : Z).

Definition enabled (i : Input) (w : World A) : Prop :=
  match i with
  | Dispatch l _ =>
      l = dialogClickHandler_ (this w) \/
      l = windowResizeHandler_ (this w) \/
      l = documentKeyDownHandler_ (this w)
  | Timeout t => In t (timers (host w)) /\ timer_due t <= now (host w)
  | Wait d => 0 <= d
  | _ => True
  end.

Definition exec (i : Input) (w : World A) : World A :=
  match i with
  | CallOpen => snd (open w)
  | CallClose action => snd (close action w)
  | CallIsOpen => snd (isOpen w)
  | CallLayout => snd (layout w)
  | CallDestroy => snd (destroy w)
  | Dispatch l evt => snd (run_listener l evt w)
  | Timeout t => snd (fire t w)
  | Frame => snd (animation_frame w)
  | Wait d => set_now (now (host w) + d) w
  end.

Inductive steps (w : World A) : World A -> Prop :=
| steps_refl : steps w w
| steps_step i w' : steps w w' -> enabled i w' -> steps w (exec i w').

Definition reachable (w : World A) : Prop :=
  exists a, steps (constructor a) w.

(** ** Reading a trace *)

Fixpoint count (p : Effect -> bool) (tr : list Effect) : nat :=
  match tr with
  | [] => O
  | e :: r => if p e then S (count p r) else count p r
  end.

Definition is_fired (id : Z) (e : Effect) : bool :=
  match e with TimerFired j => Z.eqb j id | _ => false end.

Definition is_any_fired (e : Effect) : bool :=
  match e with TimerFired _ => true | _ => false end.

Definition is_notifyOpened (e : Effect) : bool :=
  match e with Adapter notifyOpened => true | _ => false end.

Definition is_notifyClosed (e : Effect) : bool :=
  match e with Adapter (notifyClosed _) => true | _ => false end.

Definition is_completion (e : Effect) : bool :=
  is_notifyOpened e || is_notifyClosed e.

(** Neither a timer firing, nor a timer being set, nor a completion
    notification; and a listener (de)registration names the event and the
    function object that the constructor made for it. *)
Definition quiet (e : Effect) : bool :=
  match e with
  | TimerFired _ | SetTimeout _ _ _ => false
  | Adapter notifyOpened | Adapter (notifyClosed _) => false
  | Adapter (registerInteractionHandler ev h)
  | Adapter (deregisterInteractionHandler ev h) =>
      bool_decide (ev = "click" /\ h = dialogClickHandler_ new_foundation)
  | Adapter (registerDocumentHandler ev h)
  | Adapter (deregisterDocumentHandler ev h) =>
      bool_decide (ev = "keydown" /\ h = documentKeyDownHandler_ new_foundation)
  | Adapter (registerWindowHandler ev h)
  | Adapter (deregisterWindowHandler ev h) =>
      bool_decide ((ev = "resize" \/ ev = "orientationchange") /\
                   h = windowResizeHandler_ new_foundation)
  | _ => true
  end.

(** Every listener (de)registration of the trace passes the constructor's
    function object for its event. *)
Definition wired (e : Effect) : bool :=
  match e with
  | Adapter (registerInteractionHandler _ _)
  | Adapter (deregisterInteractionHandler _ _)
  | Adapter (registerDocumentHandler _ _)
  | Adapter (deregisterDocumentHandler _ _)
  | Adapter (registerWindowHandler _ _)
  | Adapter (deregisterWindowHandler _ _) => quiet e
  | _ => true
  end.

(** Every timer that fires is the one set last. *)
Fixpoint fires_latest (latest : option Z) (tr : list Effect) : bool :=
  match tr with
  | [] => true
  | SetTimeout _ _ id :: r => fires_latest (Some id) r
  | TimerFired j :: r => bool_decide (latest = Some j) && fires_latest latest r
  | _ :: r => fires_latest latest r
  end.

(** The adapter's state after a list of calls. *)
Definition run_adapter (cs : list AdapterCall) (a : A) : A :=
  fold_left (fun a' c => snd (adapter c a')) cs a.

(** The handles [setTimeout] returned, oldest first. *)
Fixpoint scheduled (tr : list Effect) : list Z :=
  match tr with
  | [] => []
  | SetTimeout _ _ id :: r => id :: scheduled r
  | _ :: r => scheduled r
  end.

(** ** The adapter calls of each transition, in program order *)

(** The calls of [open] (lines 102-112). *)
Definition open_calls (f : Foundation) : list AdapterCall :=
  [ registerInteractionHandler "click" (dialogClickHandler_ f);
    registerDocumentHandler "keydown" (documentKeyDownHandler_ f);
    registerWindowHandler "resize" (windowResizeHandler_ f);
    registerWindowHandler "orientationchange" (windowResizeHandler_ f);
    addClass (OPENING cssClasses);
    computeBoundingRect;
    addClass (OPEN cssClasses);
    addBodyClass (SCROLL_LOCK cssClasses);
    notifyOpening ].

(** The calls of [close] (lines 129-137). *)
Definition close_calls (f : Foundation) (action : JSValue) : list AdapterCall :=
  [ deregisterInteractionHandler "click" (dialogClickHandler_ f);
    deregisterDocumentHandler "keydown" (documentKeyDownHandler_ f);
    deregisterWindowHandler "resize" (windowResizeHandler_ f);
    deregisterWindowHandler "orientationchange" (windowResizeHandler_ f);
    releaseFocus;
    addClass (CLOSING cssClasses);
    removeClass (OPEN cssClasses);
    removeBodyClass (SCROLL_LOCK cssClasses);
    notifyClosing action ].

(** The calls of the two timer callbacks (lines 118-120, 141-142). *)
Definition timer_end_calls (cb : TimerCallback) : list AdapterCall :=
  match cb with
  | OpenTimerEnd =>
      [ removeClass (OPENING cssClasses); removeClass (CLOSING cssClasses);
        trapFocus; notifyOpened ]
  | CloseTimerEnd action =>
      [ removeClass (OPENING cssClasses); removeClass (CLOSING cssClasses);
        notifyClosed action ]
  end.

(** The calls of the animation-frame callback of [layout] (lines 152-153,
    158-173) when the adapter is in state [a]: which markers are added back
    depends on what the adapter's two measurements return. *)
Definition layout_calls (a : A) : list AdapterCall :=
  let a1 := snd (adapter (removeClass (STACKED cssClasses)) a) in
  let r1 := fst (adapter areButtonsStacked a1) in
  let a2 := snd (adapter areButtonsStacked a1) in
  let a3 := if truthy r1 then snd (adapter (addClass (STACKED cssClasses)) a2)
            else a2 in
  let a4 := snd (adapter (removeClass (SCROLLABLE cssClasses)) a3) in
  let r2 := fst (adapter isContentScrollable a4) in
  [removeClass (STACKED cssClasses); areButtonsStacked] ++
  (if truthy r1 then [addClass (STACKED cssClasses)] else []) ++
  [removeClass (SCROLLABLE cssClasses); isContentScrollable] ++
  (if truthy r2 then [addClass (SCROLLABLE cssClasses)] else []).

(** The two mutable fields updated, the listeners kept. *)
Definition set_fields (o : bool) (t : Z) (f : Foundation) : Foundation :=
  mkFoundation o t (dialogClickHandler_ f) (windowResizeHandler_ f)
    (documentKeyDownHandler_ f).

(** ** The timer discipline *)

(** What holds of every world an execution reaches (see [reachable_Inv]):
    the field [animationTimer_] is the last handle handed out; at most one
    timer is pending, it is that one, it was set last and has not fired;
    no handle fires twice, and none before it is handed out; completion
    notifications and timer firings go one to one; the listener fields
    hold the constructor's function objects and every (de)registration
    passed them. *)
Record Inv (w : World A) : Prop := mkInv {
  inv_current :
    0 <= animationTimer_ (this w) < nextTimerId (host w);
  inv_pending :
    timers (host w) = [] \/
    exists due cb,
      timers (host w) = [mkTimer (animationTimer_ (this w)) due cb] /\
      last (scheduled (trace w)) = Some (animationTimer_ (this w)) /\
      count (is_fired (animationTimer_ (this w))) (trace w) = 0%nat;
  inv_fresh :
    forall id, nextTimerId (host w) <= id ->
      count (is_fired id) (trace w) = 0%nat;
  inv_once :
    forall id, (count (is_fired id) (trace w) <= 1)%nat;
  inv_completions :
    count is_completion (trace w) = count is_any_fired (trace w);
  inv_latest :
    fires_latest None (trace w) = true;
  inv_handlers :
    set_fields (isOpen_ (this w)) (animationTimer_ (this w)) new_foundation
    = this w;
  inv_wired :
    forallb wired (trace w) = true
}.

(** The four ways a method or callback changes the timer table and the
    trace: not at all; by cancelling the current timer; by cancelling it
    and setting a new one (a transition); by the host firing a pending
    timer, which ends in one completion notification. *)
Inductive change (w w' : World A) : Prop :=
| change_quiet new :
    this w' = this w ->
    nextTimerId (host w') = nextTimerId (host w) ->
    timers (host w') = timers (host w) ->
    trace w' = trace w ++ new ->
    forallb quiet new = true ->
    change w w'
| change_cancel new :
    this w' = this w ->
    nextTimerId (host w') = nextTimerId (host w) ->
    timers (host w') =
      remove_timer (animationTimer_ (this w)) (timers (host w)) ->
    trace w' = trace w ++ new ->
    forallb quiet new = true ->
    change w w'
| change_transition o cb ms due pre post :
    this w' = set_fields o (nextTimerId (host w)) (this w) ->
    nextTimerId (host w') = nextTimerId (host w) + 1 ->
    timers (host w') =
      remove_timer (animationTimer_ (this w)) (timers (host w)) ++
      [mkTimer (nextTimerId (host w)) due cb] ->
    trace w' = trace w ++ pre ++ SetTimeout cb ms (nextTimerId (host w)) :: post ->
    forallb quiet pre = true ->
    forallb quiet post = true ->
    change w w'
| change_fire t c mid :
    In t (timers (host w)) ->
    this w' = this w ->
    nextTimerId (host w') = nextTimerId (host w) ->
    timers (host w') = remove_timer (timer_id t) (timers (host w)) ->
    trace w' = trace w ++ TimerFired (timer_id t) :: mid ++ [Adapter c] ->
    forallb quiet mid = true ->
    is_completion (Adapter c) = true ->
    change w w'.

(** [w'] extends [w] by effects that touch neither the fields, nor the
    timer table, nor the completion notifications. *)
Definition calm (w w' : World A) : Prop :=
  exists new,
    this w' = this w /\
    nextTimerId (host w') = nextTimerId (host w) /\
    timers (host w') = timers (host w) /\
    trace w' = trace w ++ new /\
    forallb quiet new = true.

(** Handle [id] has been handed out and is not pending. *)
Definition spent (id : Z) (w : World A) : Prop :=
  id < nextTimerId (host w) /\
  forall t, In t (timers (host w)) -> timer_id t <> id.

(** The inputs that start no transition: the host's own (timers, frames,
    time) and the calls of [isOpen], [layout] and [destroy]. No call of
    [open] or [close], and no event reaches a listener. *)
Definition idle_input (i : Input) : Prop :=
  match i with
  | CallOpen | CallClose _ | Dispatch _ _ => False
  | _ => True
  end.

Inductive idles (w : World A) : World A -> Prop :=
| idles_refl : idles w w
| idles_step i w' :
    idles w w' -> idle_input i -> enabled i w' -> idles w (exec i w').

(** ** The life cycle, read off the trace *)

(** The four phases of the dialog, as the notifications announce them. *)
Inductive Phase :=
| Closed
| Opening
| Opened
| Closing (action : JSValue).

(** A notification moves the phase; [notifyOpened] is in order only while
    opening, and [notifyClosed] only while closing with the same action. *)
Definition next_phase (p : Phase) (e : Effect) : option Phase :=
  match e with
  | Adapter notifyOpening => Some Opening
  | Adapter (notifyClosing a) => Some (Closing a)
  | Adapter notifyOpened =>
      match p with Opening => Some Opened | _ => None end
  | Adapter (notifyClosed a) =>
      match p with
      | Closing b => if bool_decide (a = b) then Some Closed else None
      | _ => None
      end
  | _ => Some p
  end.

Fixpoint phase_from (p : Phase) (tr : list Effect) : option Phase :=
  match tr with
  | [] => Some p
  | e :: r =>
      match next_phase p e with
      | Some q => phase_from q r
      | None => None
      end
  end.

Definition phase (tr : list Effect) : option Phase := phase_from Closed tr.

Definition is_open_phase (p : Phase) : bool :=
  match p with Opening | Opened => true | Closed | Closing _ => false end.

(** The phase in which a timer callback is waiting to run. *)
Definition callback_phase (cb : TimerCallback) : Phase :=
  match cb with
  | OpenTimerEnd => Opening
  | CloseTimerEnd action => Closing action
  end.

(** None of the four life-cycle notifications. *)
Definition silent (e : Effect) : bool :=
  match e with
  | Adapter notifyOpening | Adapter notifyOpened
  | Adapter (notifyClosing _) | Adapter (notifyClosed _) => false
  | _ => true
  end.

(** Whether the last of the effects [on] and [off] in a trace is [on]:
    a marker that is set, a listener that is attached, focus that is
    trapped. *)
Definition toggle (on off : Effect) (b : bool) (e : Effect) : bool :=
  if bool_decide (e = on) then true
  else if bool_decide (e = off) then false
  else b.

Fixpoint toggled_from (on off : Effect) (b : bool) (tr : list Effect) : bool :=
  match tr with
  | [] => b
  | e :: r => toggled_from on off (toggle on off b e) r
  end.

Definition toggled (on off : Effect) (tr : list Effect) : bool :=
  toggled_from on off false tr.

Definition has_class (c : string) (tr : list Effect) : bool :=
  toggled (Adapter (addClass c)) (Adapter (removeClass c)) tr.

Definition has_body_class (c : string) (tr : list Effect) : bool :=
  toggled (Adapter (addBodyClass c)) (Adapter (removeBodyClass c)) tr.

Definition focus_trapped (tr : list Effect) : bool :=
  toggled (Adapter trapFocus) (Adapter releaseFocus) tr.

Definition listens_on_surface (ev : string) (h : EventListener)
    (tr : list Effect) : bool :=
  toggled (Adapter (registerInteractionHandler ev h))
    (Adapter (deregisterInteractionHandler ev h)) tr.

Definition listens_on_document (ev : string) (h : EventListener)
    (tr : list Effect) : bool :=
  toggled (Adapter (registerDocumentHandler ev h))
    (Adapter (deregisterDocumentHandler ev h)) tr.

Definition listens_on_window (ev : string) (h : EventListener)
    (tr : list Effect) : bool :=
  toggled (Adapter (registerWindowHandler ev h))
    (Adapter (deregisterWindowHandler ev h)) tr.

(** The five class names the foundation puts on the dialog root differ. *)
Definition distinct_markers : Prop :=
  NoDup [ OPENING cssClasses; OPEN cssClasses; CLOSING cssClasses;
          STACKED cssClasses; SCROLLABLE cssClasses ].

(** Effects that are neither a field write, nor a timer call, nor any
    adapter call but the question of the click handler. *)
Definition inert (e : Effect) : bool :=
  match e with
  | Adapter (getActionFromEvent _) | RequestAnimationFrame _ => true
  | _ => false
  end.

(** What a method or callback does to the fields, the timer table and the
    trace of a reachable world, effect by effect (see [exec_moves]). *)
Inductive move (w w' : World A) : Prop :=
| move_open id due c :
    this w' = set_fields true id (this w) ->
    timers (host w') = [mkTimer id due OpenTimerEnd] ->
    trace w' =
      trace w ++
      Write_isOpen_ true :: map Adapter (open_calls new_foundation) ++
      [ RequestAnimationFrame LayoutFrame; ClearTimeout c;
        SetTimeout OpenTimerEnd (DIALOG_ANIMATION_OPEN_TIME_MS numbers) id;
        Write_animationTimer_ id ] ->
    move w w'
| move_close action id due c :
    this w' = set_fields false id (this w) ->
    timers (host w') = [mkTimer id due (CloseTimerEnd action)] ->
    trace w' =
      trace w ++
      Write_isOpen_ false :: map Adapter (close_calls new_foundation action) ++
      [ ClearTimeout c;
        SetTimeout (CloseTimerEnd action) (DIALOG_ANIMATION_CLOSE_TIME_MS numbers) id;
        Write_animationTimer_ id ] ->
    move w w'
| move_cleanup c :
    this w' = this w ->
    timers (host w') = [] ->
    trace w' =
      trace w ++
      [ Adapter (removeClass (OPENING cssClasses));
        Adapter (removeClass (CLOSING cssClasses)); ClearTimeout c ] ->
    move w w'
| move_fire t :
    timers (host w) = [t] ->
    this w' = this w ->
    timers (host w') = [] ->
    trace w' =
      trace w ++
      TimerFired (timer_id t) :: map Adapter (timer_end_calls (timer_callback t)) ->
    move w w'
| move_frame a :
    this w' = this w ->
    timers (host w') = timers (host w) ->
    trace w' = trace w ++ FrameRun LayoutFrame :: map Adapter (layout_calls a) ->
    move w w'
| move_inert new :
    this w' = this w ->
    timers (host w') = timers (host w) ->
    trace w' = trace w ++ new ->
    forallb inert new = true ->
    move w w'.

(** The flag, the pending timer and what the adapter has been told to
    hold agree with the phase [p] the notifications have reached. *)
Record Cycle (p : Phase) (w : World A) : Prop := mkCycle {
  cy_phase : phase (trace w) = Some p;
  cy_flag : isOpen_ (this w) = is_open_phase p;
  cy_timer :
    forall t, In t (timers (host w)) -> callback_phase (timer_callback t) = p;
  cy_lock :
    has_body_class (SCROLL_LOCK cssClasses) (trace w) = isOpen_ (this w);
  cy_click :
    listens_on_surface "click" (dialogClickHandler_ new_foundation) (trace w)
    = isOpen_ (this w);
  cy_keydown :
    listens_on_document "keydown" (documentKeyDownHandler_ new_foundation) (trace w)
    = isOpen_ (this w);
  cy_resize :
    listens_on_window "resize" (windowResizeHandler_ new_foundation) (trace w)
    = isOpen_ (this w);
  cy_orientationchange :
    listens_on_window "orientationchange" (windowResizeHandler_ new_foundation)
      (trace w)
    = isOpen_ (this w);
  cy_focus_open :
    focus_trapped (trace w) = true -> isOpen_ (this w) = true;
  cy_opened_focus :
    p = Opened -> focus_trapped (trace w) = true
}.

(** The open marker is on exactly while the flag is set, and a transient
    marker is on only while a timer is pending. *)
Record Marked (w : World A) : Prop := mkMarked {
  mk_open : has_class (OPEN cssClasses) (trace w) = isOpen_ (this w);
  mk_opening :
    timers (host w) = [] -> has_class (OPENING cssClasses) (trace w) = false;
  mk_closing :
    timers (host w) = [] -> has_class (CLOSING cssClasses) (trace w) = false
}.

(** The phase a notification announces. *)
Definition announces (e : Effect) : option Phase :=
  match e with
  | Adapter notifyOpening => Some Opening
  | Adapter notifyOpened => Some Opened
  | Adapter (notifyClosing a) => Some (Closing a)
  | Adapter (notifyClosed _) => Some Closed
  | _ => None
  end.

(** The effect is the adapter call [c]. *)
Definition is_call (c : AdapterCall) (e : Effect) : bool :=
  bool_decide (e = Adapter c).

(** The life-cycle notifications of a trace, in order. *)
Definition notifications (tr : list Effect) : list Effect :=
  List.filter (fun e => negb (silent e)) tr.

End MDCDialogFoundation.

(** ** A test double for the adapter *)

(** An in-memory page in place of the DOM: the class lists of the dialog
    root and of the body, the listeners attached to the dialog surface, the
    document and the window, and whether focus is trapped. The two
    measurements and the click classification are fixed by the test. *)
Module TestDouble.

Inductive ListenerTarget := OnSurface | OnDocument | OnWindow.

#[global] Instance ListenerTarget_eq_dec : EqDecision ListenerTarget.
Proof. solve_decision. Defined.

Record Page := mkPage {
  classList : gset string;
  bodyClassList : gset string;
  listeners : list (ListenerTarget * string * EventListener);
  focusTrapped : bool
}.

Definition emptyPage : Page := mkPage ∅ ∅ [] false.

(** [addEventListener]: attaching a listener twice attaches it once. *)
Definition attach (l : ListenerTarget * string * EventListener)
    (ls : list (ListenerTarget * string * EventListener)) :=
  if bool_decide (l ∈ ls) then ls else ls ++ [l].

(** [removeEventListener]: detaches the listener with the same target,
    event name and function object. *)
Fixpoint detach (l : ListenerTarget * string * EventListener)
    (ls : list (ListenerTarget * string * EventListener)) :=
  match ls with
  | [] => []
  | x :: r => if bool_decide (x = l) then detach l r else x :: detach l r
  end.

Definition with_classList (f : gset string -> gset string) (p : Page) : Page :=
  mkPage (f (classList p)) (bodyClassList p) (listeners p) (focusTrapped p).

Definition with_bodyClassList (f : gset string -> gset string) (p : Page) : Page :=
  mkPage (classList p) (f (bodyClassList p)) (listeners p) (focusTrapped p).

Definition with_listeners
    (f : list (ListenerTarget * string * EventListener) ->
         list (ListenerTarget * string * EventListener)) (p : Page) : Page :=
  mkPage (classList p) (bodyClassList p) (f (listeners p)) (focusTrapped p).

Definition with_focusTrapped (b : bool) (p : Page) : Page :=
  mkPage (classList p) (bodyClassList p) (listeners p) b.

Definition adapter (stacked scrollable : bool) (classify : Event -> JSValue)
    (c : AdapterCall) (p : Page) : JSValue * Page :=
  match c with
  | addClass n => (JUndefined, with_classList (fun s => s ∪ {[n]}) p)
  | removeClass n => (JUndefined, with_classList (fun s => s ∖ {[n]}) p)
  | addBodyClass n => (JUndefined, with_bodyClassList (fun s => s ∪ {[n]}) p)
  | removeBodyClass n => (JUndefined, with_bodyClassList (fun s => s ∖ {[n]}) p)
  | registerInteractionHandler ev h =>
      (JUndefined, with_listeners (attach (OnSurface, ev, h)) p)
  | deregisterInteractionHandler ev h =>
      (JUndefined, with_listeners (detach (OnSurface, ev, h)) p)
  | registerDocumentHandler ev h =>
      (JUndefined, with_listeners (attach (OnDocument, ev, h)) p)
  | deregisterDocumentHandler ev h =>
      (JUndefined, with_listeners (detach (OnDocument, ev, h)) p)
  | registerWindowHandler ev h =>
      (JUndefined, with_listeners (attach (OnWindow, ev, h)) p)
  | deregisterWindowHandler ev h =>
      (JUndefined, with_listeners (detach (OnWindow, ev, h)) p)
  | computeBoundingRect => (JUndefined, p)
  | trapFocus => (JUndefined, with_focusTrapped true p)
  | releaseFocus => (JUndefined, with_focusTrapped false p)
  | isContentScrollable => (JBool scrollable, p)
  | areButtonsStacked => (JBool stacked, p)
  | getActionFromEvent evt => (classify evt, p)
  | notifyOpening | notifyOpened | notifyClosing _ | notifyClosed _ =>
      (JUndefined, p)
  end.

(** Constants in the style of ./constants, for running the foundation on
    the test double. *)
Definition cssClasses : CssClasses :=
  mkCssClasses "mdc-dialog--opening" "mdc-dialog--open" "mdc-dialog--closing"
    "mdc-dialog-scroll-lock" "mdc-dialog--stacked" "mdc-dialog--scrollable".

Definition numbers : Numbers := mkNumbers 150 75.

Definition strings : Strings := mkStrings "destroy" "close".

(** A click, and two key presses. *)
Definition click : Event := mkEvent (JStr "button") JUndefined JUndefined.
Definition escapeKey : Event := mkEvent JUndefined (JStr "Escape") JUndefined.
Definition enterKey : Event := mkEvent JUndefined (JStr "Enter") (JNum 13).

(** The buttons are stacked, the content does not scroll, and every click
    is on the accept button. *)
Definition accepting := adapter true false (fun _ => JStr "accept").

(** The same page, but a click's action is the empty string. *)
Definition unlabelled := adapter true false (fun _ => JStr "").

(** A new foundation on the empty page, and the same after [open()]. *)
Definition fresh : World Page := constructor emptyPage.

Definition opened : World Page :=
  snd (open accepting cssClasses numbers fresh).

Definition opened_unlabelled : World Page :=
  snd (open unlabelled cssClasses numbers fresh).

(** One life cycle: [open()], the open duration, a click on the accept
    button, the close duration. *)
Definition shown : World Page :=
  snd (elapse accepting cssClasses 150 opened).

Definition dismissed : World Page :=
  snd (elapse accepting cssClasses 75
         (snd (run_listener accepting cssClasses numbers strings
                 (dialogClickHandler_ (this shown)) click shown))).

End TestDouble.

(** * Properties *)

Section Properties.

Context {A : Type}.
Variable adapter : AdapterCall -> A -> JSValue * A.
Variable cssClasses : CssClasses.
Variable numbers : Numbers.
Variable strings : Strings.

Local Abbreviation open := (open adapter cssClasses numbers).
Local Abbreviation close := (close adapter cssClasses numbers).
Local Abbreviation destroy := (destroy adapter cssClasses numbers strings).
Local Abbreviation handleAnimationTimerEnd_ := (handleAnimationTimerEnd_ adapter cssClasses).
Local Abbreviation detectStackedButtons_ := (detectStackedButtons_ adapter cssClasses).
Local Abbreviation detectScrollableContent_ := (detectScrollableContent_ adapter cssClasses).
Local Abbreviation handleDialogClick_ := (handleDialogClick_ adapter cssClasses numbers).
Local Abbreviation handleDocumentKeyDown_ :=
  (handleDocumentKeyDown_ adapter cssClasses numbers strings).
Local Abbreviation run_timer_callback := (run_timer_callback adapter cssClasses).
Local Abbreviation run_frame_callback := (run_frame_callback adapter cssClasses).
Local Abbreviation run_listener := (run_listener adapter cssClasses numbers strings).
Local Abbreviation fire := (fire adapter cssClasses).
Local Abbreviation run_due := (run_due adapter cssClasses).
Local Abbreviation elapse := (elapse adapter cssClasses).
Local Abbreviation animation_frame := (animation_frame adapter cssClasses).
Local Abbreviation enabled := (@enabled A).
Local Abbreviation exec := (exec adapter cssClasses numbers strings).
Local Abbreviation steps := (steps adapter cssClasses numbers strings).
Local Abbreviation reachable := (reachable adapter cssClasses numbers strings).
Local Abbreviation call := (call adapter).
Local Abbreviation run_adapter := (run_adapter adapter).
Local Abbreviation World := (World A).
Local Abbreviation calm := (@calm A).
Local Abbreviation spent := (@spent A).
Local Abbreviation idles := (idles adapter cssClasses numbers strings).

Local Abbreviation OPEN_MS := (DIALOG_ANIMATION_OPEN_TIME_MS numbers).
Local Abbreviation CLOSE_MS := (DIALOG_ANIMATION_CLOSE_TIME_MS numbers).

(** ** What each method does to the world *)

Local Abbreviation open_calls := (open_calls cssClasses).
Local Abbreviation close_calls := (close_calls cssClasses).
Local Abbreviation timer_end_calls := (timer_end_calls cssClasses).
Local Abbreviation layout_calls := (layout_calls adapter cssClasses).

Lemma open_world (w : World) :
  snd (open w) =
  let id := nextTimerId (host w) in
  mkWorld
    (set_fields true id (this w))
    (run_adapter (open_calls (this w)) (adapter_ w))
    (mkHost (now (host w)) (id + 1)
       (remove_timer (animationTimer_ (this w)) (timers (host w)) ++
        [mkTimer id (now (host w) + Z.max 0 OPEN_MS) OpenTimerEnd])
       (frames (host w) ++ [LayoutFrame]))
    (trace w ++
     Write_isOpen_ true :: map Adapter (open_calls (this w)) ++
     [ RequestAnimationFrame LayoutFrame;
       ClearTimeout (animationTimer_ (this w));
       SetTimeout OpenTimerEnd OPEN_MS id;
       Write_animationTimer_ id ]).
Proof.
  destruct w as [[o t c r k] a [n nx ts fs] tr].
  cbn. rewrite <- !app_assoc. reflexivity.
Qed.

Lemma close_world (action : JSValue) (w : World) :
  snd (close action w) =
  let id := nextTimerId (host w) in
  mkWorld
    (set_fields false id (this w))
    (run_adapter (close_calls (this w) action) (adapter_ w))
    (mkHost (now (host w)) (id + 1)
       (remove_timer (animationTimer_ (this w)) (timers (host w)) ++
        [mkTimer id (now (host w) + Z.max 0 CLOSE_MS) (CloseTimerEnd action)])
       (frames (host w)))
    (trace w ++
     Write_isOpen_ false :: map Adapter (close_calls (this w) action) ++
     [ ClearTimeout (animationTimer_ (this w));
       SetTimeout (CloseTimerEnd action) CLOSE_MS id;
       Write_animationTimer_ id ]).
Proof.
  destruct w as [[o t c r k] a [n nx ts fs] tr].
  cbn. rewrite <- !app_assoc. reflexivity.
Qed.

Lemma run_timer_callback_world (cb : TimerCallback) (w : World) :
  snd (run_timer_callback cb w) =
  mkWorld (this w) (run_adapter (timer_end_calls cb) (adapter_ w)) (host w)
    (trace w ++ map Adapter (timer_end_calls cb)).
Proof.
  destruct w as [f a h tr], cb; cbn; rewrite <- !app_assoc; reflexivity.
Qed.

(** ** Reading traces: counting and appending *)

Lemma count_app (p : Effect -> bool) (tr1 tr2 : list Effect) :
  count p (tr1 ++ tr2) = (count p tr1 + count p tr2)%nat.
Proof.
  induction tr1 as [|e r IH]; simpl; [reflexivity|].
  destruct (p e); rewrite IH; reflexivity.
Qed.

Lemma scheduled_app (tr1 tr2 : list Effect) :
  scheduled (tr1 ++ tr2) = scheduled tr1 ++ scheduled tr2.
Proof.
  induction tr1 as [|e r IH]; simpl; [reflexivity|].
  destruct e; simpl; rewrite ?IH; reflexivity.
Qed.

Lemma quiet_no_fire (new : list Effect) :
  forallb quiet new = true -> count is_any_fired new = 0%nat.
Proof.
  induction new as [|e r IH]; simpl; [reflexivity|].
  intros [He Hr]%andb_prop. destruct e; simpl in *; auto; discriminate.
Qed.

Lemma no_fire_count_fired (id : Z) (new : list Effect) :
  count is_any_fired new = 0%nat -> count (is_fired id) new = 0%nat.
Proof.
  induction new as [|e r IH]; simpl; [reflexivity|].
  destruct e; simpl; auto; discriminate.
Qed.

Lemma quiet_count_fired (id : Z) (new : list Effect) :
  forallb quiet new = true -> count (is_fired id) new = 0%nat.
Proof. intros H. apply no_fire_count_fired, quiet_no_fire, H. Qed.

Lemma quiet_no_completion (new : list Effect) :
  forallb quiet new = true -> count is_completion new = 0%nat.
Proof.
  induction new as [|e r IH]; simpl; [reflexivity|].
  intros [He Hr]%andb_prop.
  destruct e as [| |c| | | | |]; simpl in *; auto; try discriminate.
  destruct c; simpl in *; auto; discriminate.
Qed.

Lemma quiet_scheduled (new : list Effect) :
  forallb quiet new = true -> scheduled new = [].
Proof.
  induction new as [|e r IH]; simpl; [reflexivity|].
  intros [He Hr]%andb_prop. destruct e; simpl in *; auto; discriminate.
Qed.

Lemma quiet_wired (new : list Effect) :
  forallb quiet new = true -> forallb wired new = true.
Proof.
  induction new as [|e r IH]; simpl; [reflexivity|].
  intros [He Hr]%andb_prop. rewrite (IH Hr), andb_true_r.
  destruct e as [| |c| | | | |]; simpl in *; auto.
  destruct c; simpl in *; auto.
Qed.

Lemma no_fire_fires_latest (new : list Effect) :
  count is_any_fired new = 0%nat -> forall l, fires_latest l new = true.
Proof.
  induction new as [|e r IH]; simpl; [reflexivity|].
  destruct e; simpl; auto; discriminate.
Qed.

Lemma fires_latest_app (tr new : list Effect) :
  forall l,
    fires_latest l (tr ++ new) =
    fires_latest l tr &&
    fires_latest (match last (scheduled tr) with Some j => Some j | None => l end) new.
Proof.
  induction tr as [|e r IH]; intros l; simpl; [reflexivity|].
  destruct e; simpl; rewrite ?IH; try reflexivity.
  - rewrite last_cons. destruct (last (scheduled r)); reflexivity.
  - rewrite andb_assoc. reflexivity.
Qed.

(** ** Timers *)

Lemma remove_timer_In (id : Z) (l : list Timer) (t : Timer) :
  In t (remove_timer id l) -> In t l /\ timer_id t <> id.
Proof.
  induction l as [|u r IH]; simpl; [tauto|].
  destruct (Z.eqb_spec (timer_id u) id) as [E|E]; simpl.
  - intros H. destruct (IH H). tauto.
  - intros [->|H]; [tauto|]. destruct (IH H). tauto.
Qed.

Lemma remove_timer_single (id due : Z) (cb : TimerCallback) :
  remove_timer id [mkTimer id due cb] = [].
Proof. simpl. rewrite Z.eqb_refl. reflexivity. Qed.

Lemma remove_timer_length (id : Z) (l : list Timer) :
  (length (remove_timer id l) <= length l)%nat.
Proof.
  induction l as [|u r IH]; simpl; [lia|].
  destruct (Z.eqb (timer_id u) id); simpl; lia.
Qed.

Lemma remove_timer_shrinks (l : list Timer) (t : Timer) :
  In t l -> (length (remove_timer (timer_id t) l) < length l)%nat.
Proof.
  induction l as [|u r IH]; simpl; [tauto|].
  intros [->|H].
  - rewrite Z.eqb_refl. pose proof (remove_timer_length (timer_id t) r). lia.
  - specialize (IH H). destruct (Z.eqb (timer_id u) (timer_id t)); simpl; lia.
Qed.

(** ** The timer discipline is kept by every change *)

Lemma Inv_constructor (a : A) : Inv (constructor a).
Proof.
  constructor; simpl; auto; try reflexivity; lia.
Qed.

Lemma Inv_timer (w : World) (t : Timer) :
  Inv w -> In t (timers (host w)) ->
  timers (host w) = [t] /\
  timer_id t = animationTimer_ (this w) /\
  last (scheduled (trace w)) = Some (timer_id t) /\
  count (is_fired (timer_id t)) (trace w) = 0%nat.
Proof.
  intros I Ht. destruct (inv_pending w I) as [E|(due & cb & E & L & C)].
  - rewrite E in Ht. destruct Ht.
  - rewrite E in Ht. destruct Ht as [<-|[]]. simpl. auto.
Qed.

Lemma Inv_cancelled (w : World) :
  Inv w -> remove_timer (animationTimer_ (this w)) (timers (host w)) = [].
Proof.
  intros I. destruct (inv_pending w I) as [E|(due & cb & E & _)]; rewrite E.
  - reflexivity.
  - apply remove_timer_single.
Qed.

Lemma Inv_change (w w' : World) : Inv w -> change w w' -> Inv w'.
Proof.
  intros I [new Hf Hn Ht Htr Hq | new Hf Hn Ht Htr Hq
           | o cb ms due pre post Hf Hn Ht Htr Hpre Hpost
           | t c mid Hin Hf Hn Ht Htr Hq Hc].
  - (* nothing changes *)
    constructor; rewrite ?Hf, ?Hn, ?Ht, ?Htr.
    + apply I.
    + destruct (inv_pending w I) as [E|(due & cb & E & L & C)]; [auto|].
      right. exists due, cb. rewrite scheduled_app, count_app.
      rewrite (quiet_scheduled new Hq), (quiet_count_fired _ new Hq), app_nil_r.
      rewrite C. auto.
    + intros id Hid. rewrite count_app, (quiet_count_fired _ new Hq).
      rewrite (inv_fresh w I id Hid). reflexivity.
    + intros id. rewrite count_app, (quiet_count_fired _ new Hq).
      pose proof (inv_once w I id). lia.
    + rewrite !count_app, (quiet_no_completion new Hq), (quiet_no_fire new Hq).
      rewrite (inv_completions w I). reflexivity.
    + rewrite fires_latest_app, (inv_latest w I).
      apply no_fire_fires_latest, quiet_no_fire, Hq.
    + apply I.
    + rewrite forallb_app, (inv_wired w I), (quiet_wired new Hq). reflexivity.
  - (* the current timer is cancelled *)
    constructor; rewrite ?Hf, ?Hn, ?Ht, ?Htr.
    + apply I.
    + left. apply Inv_cancelled, I.
    + intros id Hid. rewrite count_app, (quiet_count_fired _ new Hq).
      rewrite (inv_fresh w I id Hid). reflexivity.
    + intros id. rewrite count_app, (quiet_count_fired _ new Hq).
      pose proof (inv_once w I id). lia.
    + rewrite !count_app, (quiet_no_completion new Hq), (quiet_no_fire new Hq).
      rewrite (inv_completions w I). reflexivity.
    + rewrite fires_latest_app, (inv_latest w I).
      apply no_fire_fires_latest, quiet_no_fire, Hq.
    + apply I.
    + rewrite forallb_app, (inv_wired w I), (quiet_wired new Hq). reflexivity.
  - (* a transition: cancel, then set a new timer *)
    pose proof (inv_current w I) as Hcur.
    assert (Hcount : forall id,
      count (is_fired id)
        (trace w ++ pre ++ SetTimeout cb ms (nextTimerId (host w)) :: post)
      = count (is_fired id) (trace w)).
    { intros id. rewrite !count_app. simpl.
      rewrite (quiet_count_fired _ pre Hpre), (quiet_count_fired _ post Hpost).
      lia. }
    constructor; rewrite ?Hf, ?Hn, ?Ht, ?Htr; simpl.
    + lia.
    + right. exists due, cb. rewrite (Inv_cancelled w I). split; [reflexivity|].
      split.
      * rewrite !scheduled_app. simpl.
        rewrite (quiet_scheduled pre Hpre), (quiet_scheduled post Hpost).
        simpl. apply last_snoc.
      * rewrite Hcount. apply (inv_fresh w I). lia.
    + intros id Hid. rewrite Hcount. apply (inv_fresh w I). lia.
    + intros id. rewrite Hcount. apply (inv_once w I).
    + rewrite !count_app. simpl.
      rewrite (quiet_no_completion pre Hpre), (quiet_no_completion post Hpost).
      rewrite (quiet_no_fire pre Hpre), (quiet_no_fire post Hpost).
      rewrite (inv_completions w I). lia.
    + rewrite fires_latest_app, (inv_latest w I). simpl.
      rewrite fires_latest_app. simpl.
      rewrite (no_fire_fires_latest pre (quiet_no_fire pre Hpre)).
      apply no_fire_fires_latest, quiet_no_fire, Hpost.
    + pose proof (inv_handlers w I) as Hh. unfold set_fields in *.
      rewrite <- Hh. reflexivity.
    + rewrite !forallb_app. simpl.
      rewrite (inv_wired w I), (quiet_wired pre Hpre), (quiet_wired post Hpost).
      reflexivity.
  - (* the pending timer fires *)
    destruct (Inv_timer w t I Hin) as (E & Hid & L & C).
    assert (Hmid : forall id, count (is_fired id) (mid ++ [Adapter c]) = 0%nat).
    { intros id. rewrite count_app, (quiet_count_fired _ mid Hq). reflexivity. }
    constructor; rewrite ?Hf, ?Hn, ?Ht, ?Htr.
    + apply I.
    + left. rewrite Hid. apply Inv_cancelled, I.
    + intros id Hge. rewrite count_app. simpl. rewrite Hmid.
      rewrite (inv_fresh w I id Hge).
      pose proof (inv_current w I).
      destruct (Z.eqb_spec (timer_id t) id); [lia|reflexivity].
    + intros id. rewrite count_app. simpl. rewrite Hmid.
      destruct (Z.eqb_spec (timer_id t) id) as [<-|Hne].
      * rewrite C. lia.
      * pose proof (inv_once w I id). lia.
    + rewrite !count_app. simpl. rewrite !count_app. simpl.
      rewrite (quiet_no_completion mid Hq), (quiet_no_fire mid Hq), Hc.
      rewrite (inv_completions w I). lia.
    + rewrite fires_latest_app, (inv_latest w I), L. simpl.
      rewrite bool_decide_eq_true_2 by reflexivity. simpl.
      apply no_fire_fires_latest. rewrite count_app, (quiet_no_fire mid Hq).
      reflexivity.
    + apply I.
    + rewrite forallb_app, (inv_wired w I). simpl.
      rewrite forallb_app, (quiet_wired mid Hq). simpl.
      destruct c; try reflexivity; discriminate.
Qed.

Lemma Inv_changes (w w' : World) : Inv w -> rtc change w w' -> Inv w'.
Proof.
  intros I H. induction H as [|w w1 w2 H1 _ IH]; [exact I|].
  apply IH. exact (Inv_change _ _ I H1).
Qed.

(** ** Every input is a chain of such changes *)

Lemma destroy_world (w : World) :
  snd (destroy w) =
  let w1 := if isOpen_ (this w)
            then snd (close (JStr (DESTROY_ACTION strings)) w) else w in
  mkWorld (this w1)
    (run_adapter [removeClass (OPENING cssClasses); removeClass (CLOSING cssClasses)]
       (adapter_ w1))
    (mkHost (now (host w1)) (nextTimerId (host w1))
       (remove_timer (animationTimer_ (this w1)) (timers (host w1)))
       (frames (host w1)))
    (trace w1 ++
     [ Adapter (removeClass (OPENING cssClasses));
       Adapter (removeClass (CLOSING cssClasses));
       ClearTimeout (animationTimer_ (this w1)) ]).
Proof.
  destruct w as [[o t c r k] a [n nx ts fs] tr].
  destruct o; cbn; rewrite <- !app_assoc; reflexivity.
Qed.

Lemma fire_world (t : Timer) (w : World) :
  snd (fire t w) =
  mkWorld (this w)
    (run_adapter (timer_end_calls (timer_callback t)) (adapter_ w))
    (mkHost (Z.max (now (host w)) (timer_due t)) (nextTimerId (host w))
       (remove_timer (timer_id t) (timers (host w))) (frames (host w)))
    (trace w ++
     TimerFired (timer_id t) :: map Adapter (timer_end_calls (timer_callback t))).
Proof.
  unfold fire. rewrite run_timer_callback_world. cbn.
  rewrite <- ?app_assoc. reflexivity.
Qed.

Lemma run_frame_callback_world (cb : FrameCallback) (w : World) :
  snd (run_frame_callback cb w) =
  mkWorld (this w) (run_adapter (layout_calls (adapter_ w)) (adapter_ w)) (host w)
    (trace w ++ map Adapter (layout_calls (adapter_ w))).
Proof.
  destruct cb, w as [f a h tr].
  unfold layout_calls, run_frame_callback, detectStackedButtons_,
    detectScrollableContent_, bind, call_, call, ret. simpl.
  destruct (truthy (fst (adapter areButtonsStacked
             (snd (adapter (removeClass (STACKED cssClasses)) a))))); simpl;
  match goal with |- context [truthy ?r] => destruct (truthy r) end; simpl;
  rewrite <- ?app_assoc; reflexivity.
Qed.

Lemma layout_calls_quiet (a : A) :
  forallb quiet (map Adapter (layout_calls a)) = true.
Proof.
  unfold layout_calls. cbn.
  repeat match goal with |- context [truthy ?r] => destruct (truthy r) end;
  reflexivity.
Qed.

Lemma Inv_listeners (w : World) :
  Inv w ->
  dialogClickHandler_ (this w) = dialogClickHandler_ new_foundation /\
  windowResizeHandler_ (this w) = windowResizeHandler_ new_foundation /\
  documentKeyDownHandler_ (this w) = documentKeyDownHandler_ new_foundation.
Proof.
  intros I. rewrite <- (inv_handlers w I). simpl. auto.
Qed.

Lemma open_change (w : World) : Inv w -> change w (snd (open w)).
Proof.
  intros I. destruct (Inv_listeners w I) as (Hc & Hr & Hk).
  apply (change_transition _ _ true OpenTimerEnd OPEN_MS
           (now (host w) + Z.max 0 OPEN_MS)
           (Write_isOpen_ true :: map Adapter (open_calls (this w)) ++
            [RequestAnimationFrame LayoutFrame;
             ClearTimeout (animationTimer_ (this w))])
           [Write_animationTimer_ (nextTimerId (host w))]);
    rewrite ?open_world; try reflexivity.
  unfold open_calls. simpl. rewrite Hc, Hr, Hk. reflexivity.
Qed.

Lemma close_change (action : JSValue) (w : World) :
  Inv w -> change w (snd (close action w)).
Proof.
  intros I. destruct (Inv_listeners w I) as (Hc & Hr & Hk).
  apply (change_transition _ _ false (CloseTimerEnd action) CLOSE_MS
           (now (host w) + Z.max 0 CLOSE_MS)
           (Write_isOpen_ false :: map Adapter (close_calls (this w) action) ++
            [ClearTimeout (animationTimer_ (this w))])
           [Write_animationTimer_ (nextTimerId (host w))]);
    rewrite ?close_world; try reflexivity.
  unfold close_calls. simpl. rewrite Hc, Hr, Hk. reflexivity.
Qed.

Lemma destroy_changes (w : World) : Inv w -> rtc change w (snd (destroy w)).
Proof.
  intros I. rewrite destroy_world.
  set (w1 := if isOpen_ (this w)
             then snd (close (JStr (DESTROY_ACTION strings)) w) else w).
  assert (H1 : rtc change w w1).
  { subst w1. destruct (isOpen_ (this w)).
    - apply rtc_once, close_change, I.
    - apply rtc_refl. }
  eapply rtc_r; [exact H1|].
  eapply change_cancel; simpl; reflexivity.
Qed.

Lemma fire_change (t : Timer) (w : World) :
  In t (timers (host w)) -> change w (snd (fire t w)).
Proof.
  intros Hin. rewrite fire_world.
  destruct (timer_callback t) as [|action].
  - apply (change_fire _ _ t notifyOpened
             (map Adapter [removeClass (OPENING cssClasses);
                           removeClass (CLOSING cssClasses); trapFocus]));
      auto; reflexivity.
  - apply (change_fire _ _ t (notifyClosed action)
             (map Adapter [removeClass (OPENING cssClasses);
                           removeClass (CLOSING cssClasses)]));
      auto; reflexivity.
Qed.

Lemma calm_refl (w : World) : calm w w.
Proof.
  exists []. rewrite app_nil_r. auto.
Qed.

Lemma calm_trans (w1 w2 w3 : World) : calm w1 w2 -> calm w2 w3 -> calm w1 w3.
Proof.
  intros (n1 & Hf1 & Hn1 & Ht1 & Htr1 & Hq1) (n2 & Hf2 & Hn2 & Ht2 & Htr2 & Hq2).
  exists (n1 ++ n2).
  rewrite Hf2, Hn2, Ht2, Htr2, Htr1, forallb_app, Hq1, Hq2, app_assoc. auto.
Qed.

Lemma calm_change (w w' : World) : calm w w' -> change w w'.
Proof.
  intros (new & Hf & Hn & Ht & Htr & Hq). exact (change_quiet _ _ new Hf Hn Ht Htr Hq).
Qed.

Lemma calm_count (p : Effect -> bool) (w w' : World) :
  (forall e, quiet e = true -> p e = false) ->
  calm w w' -> count p (trace w') = count p (trace w).
Proof.
  intros Hp (new & _ & _ & _ & -> & Hq). rewrite count_app.
  assert (H : count p new = 0%nat).
  { induction new as [|e r IH]; simpl in *; [reflexivity|].
    apply andb_prop in Hq as [He Hr]. rewrite (Hp e He). auto. }
  lia.
Qed.

Lemma frame_callback_calm (cb : FrameCallback) (w : World) :
  calm w (snd (bind (emit (FrameRun cb)) (fun _ => run_frame_callback cb) w)).
Proof.
  unfold bind. rewrite run_frame_callback_world. simpl.
  exists (FrameRun cb :: map Adapter (layout_calls (adapter_ w))).
  split; [reflexivity|]. split; [reflexivity|]. split; [reflexivity|]. split.
  - simpl. rewrite <- app_assoc. reflexivity.
  - apply layout_calls_quiet.
Qed.

Lemma frames_calm (q : list FrameCallback) :
  forall w : World,
    calm w
      (fold_left
         (fun w' cb =>
            snd (bind (emit (FrameRun cb)) (fun _ => run_frame_callback cb) w'))
         q w).
Proof.
  induction q as [|cb q IH]; intros w; simpl.
  - apply calm_refl.
  - eapply calm_trans; [apply frame_callback_calm|apply IH].
Qed.

Lemma animation_frame_calm (w : World) : calm w (snd (animation_frame w)).
Proof.
  unfold animation_frame. simpl.
  eapply calm_trans; [|apply frames_calm].
  exists []. simpl. rewrite app_nil_r. auto.
Qed.

Lemma animation_frame_changes (w : World) :
  rtc change w (snd (animation_frame w)).
Proof. apply rtc_once, calm_change, animation_frame_calm. Qed.

Lemma layout_change (w : World) : change w (snd (layout w)).
Proof.
  apply (change_quiet _ _ [RequestAnimationFrame LayoutFrame]); reflexivity.
Qed.

Lemma call_change (c : AdapterCall) (w : World) :
  quiet (Adapter c) = true -> change w (snd (call c w)).
Proof.
  intros Hq. apply (change_quiet _ _ [Adapter c]); try reflexivity.
  change (quiet (Adapter c) && true = true). rewrite Hq. reflexivity.
Qed.

Lemma Inv_call (c : AdapterCall) (w : World) :
  quiet (Adapter c) = true -> Inv w -> Inv (snd (call c w)).
Proof.
  intros Hq I. exact (Inv_change _ _ I (call_change c w Hq)).
Qed.

Lemma handleDialogClick_changes (evt : Event) (w : World) :
  Inv w -> rtc change w (snd (handleDialogClick_ evt w)).
Proof.
  intros I. unfold handleDialogClick_, bind.
  pose proof (call_change (getActionFromEvent evt) w eq_refl) as H1.
  destruct (truthy (fst (call (getActionFromEvent evt) w))).
  - eapply rtc_l; [exact H1|].
    apply rtc_once, close_change. exact (Inv_change _ _ I H1).
  - apply rtc_once. exact H1.
Qed.

Lemma handleDocumentKeyDown_changes (evt : Event) (w : World) :
  Inv w -> rtc change w (snd (handleDocumentKeyDown_ evt w)).
Proof.
  intros I. unfold handleDocumentKeyDown_.
  destruct (strict_eq (key evt) (JStr "Escape") ||
            strict_eq (keyCode evt) (JNum 27)).
  - apply rtc_once, close_change, I.
  - apply rtc_refl.
Qed.

Lemma run_listener_changes (l : EventListener) (evt : Event) (w : World) :
  Inv w -> rtc change w (snd (run_listener l evt w)).
Proof.
  intros I. unfold run_listener. destruct (listener_body l).
  - apply handleDialogClick_changes, I.
  - apply rtc_once, layout_change.
  - apply handleDocumentKeyDown_changes, I.
Qed.

Lemma exec_changes (i : Input) (w : World) :
  Inv w -> enabled i w -> rtc change w (exec i w).
Proof.
  intros I En. destruct i as [|action| | | |l evt|t| |d]; simpl.
  - apply rtc_once, open_change, I.
  - apply rtc_once, close_change, I.
  - apply rtc_refl.
  - apply rtc_once, layout_change.
  - apply destroy_changes, I.
  - apply run_listener_changes, I.
  - apply rtc_once, fire_change, En.
  - apply animation_frame_changes.
  - apply rtc_once, (change_quiet _ _ []); simpl; try reflexivity.
    rewrite app_nil_r. reflexivity.
Qed.

Lemma Inv_exec (i : Input) (w : World) :
  Inv w -> enabled i w -> Inv (exec i w).
Proof.
  intros I En. exact (Inv_changes _ _ I (exec_changes i w I En)).
Qed.

Lemma Inv_steps (w w' : World) : Inv w -> steps w w' -> Inv w'.
Proof.
  intros I H. induction H as [|i w' H IH En]; [exact I|].
  apply Inv_exec; auto.
Qed.

Lemma reachable_Inv (w : World) : reachable w -> Inv w.
Proof.
  intros [a H]. exact (Inv_steps _ _ (Inv_constructor a) H).
Qed.

(** ** A handle that is spent never fires again *)

Lemma spent_change (id : Z) (w w' : World) :
  change w w' -> spent id w ->
  spent id w' /\ count (is_fired id) (trace w') = count (is_fired id) (trace w).
Proof.
  intros [new Hf Hn Ht Htr Hq | new Hf Hn Ht Htr Hq
         | o cb ms due pre post Hf Hn Ht Htr Hpre Hpost
         | t c mid Hin Hf Hn Ht Htr Hq Hc] [Hlt Hnot];
    unfold spent; rewrite Hn, Ht, Htr, ?count_app; simpl;
    rewrite ?count_app, ?(quiet_count_fired id _ Hq),
      ?(quiet_count_fired id _ Hpre), ?(quiet_count_fired id _ Hpost).
  - split; [auto|lia].
  - split; [|lia]. split; [auto|].
    intros t Hin. apply remove_timer_In in Hin as [Hin _]. auto.
  - split; [|simpl; lia]. split; [lia|].
    intros t [Hin|[<-|[]]]%in_app_or; simpl; [|lia].
    apply remove_timer_In in Hin as [Hin _]. auto.
  - split.
    + split; [auto|]. intros u Hu. apply remove_timer_In in Hu as [Hu _]. auto.
    + destruct (Z.eqb_spec (timer_id t) id) as [E|E].
      * exfalso. exact (Hnot t Hin E).
      * simpl. lia.
Qed.

Lemma spent_changes (id : Z) (w w' : World) :
  rtc change w w' -> spent id w ->
  spent id w' /\ count (is_fired id) (trace w') = count (is_fired id) (trace w).
Proof.
  intros H. induction H as [|w w1 w2 H1 _ IH]; intros S; [auto|].
  destruct (spent_change id _ _ H1 S) as [S1 C1].
  destruct (IH S1) as [S2 C2]. split; [auto|congruence].
Qed.

Lemma spent_steps (id : Z) (w w' : World) :
  Inv w -> steps w w' -> spent id w ->
  spent id w' /\ count (is_fired id) (trace w') = count (is_fired id) (trace w).
Proof.
  intros I H S. induction H as [|i w' H IH En]; [auto|].
  destruct IH as [S1 C1].
  destruct (spent_changes id _ _ (exec_changes i w' (Inv_steps _ _ I H) En) S1)
    as [S2 C2].
  split; [auto|congruence].
Qed.

(** ** Closed and with no timer pending, nothing more is delivered *)

Lemma destroy_closed_calm (w : World) :
  isOpen_ (this w) = false -> timers (host w) = [] -> calm w (snd (destroy w)).
Proof.
  intros O E. rewrite destroy_world. cbv zeta. rewrite O.
  exists [ Adapter (removeClass (OPENING cssClasses));
           Adapter (removeClass (CLOSING cssClasses));
           ClearTimeout (animationTimer_ (this w)) ].
  simpl. rewrite E. auto.
Qed.

Lemma idles_calm (w w' : World) :
  isOpen_ (this w) = false -> timers (host w) = [] -> idles w w' -> calm w w'.
Proof.
  intros O E H. induction H as [|i w' H IH Hi En]; [apply calm_refl|].
  eapply calm_trans; [exact IH|].
  destruct IH as (new & Hf & _ & Ht & _).
  rewrite <- Hf in O. rewrite <- Ht in E.
  destruct i as [| | | | | |t| |d]; simpl in Hi; try contradiction; simpl.
  - apply calm_refl.
  - exists [RequestAnimationFrame LayoutFrame]. auto.
  - apply destroy_closed_calm; assumption.
  - destruct En as [Hin _]. rewrite E in Hin. destruct Hin.
  - apply animation_frame_calm.
  - exists []. simpl. rewrite app_nil_r. auto.
Qed.

(** ** Letting time pass *)

Lemma earliest_In (l : list Timer) (t : Timer) :
  earliest l = Some t -> In t l.
Proof.
  revert t. induction l as [|u r IH]; simpl; intros t; [discriminate|].
  destruct (earliest r) as [v|].
  - destruct (Z.ltb (timer_due v) (timer_due u)); intros [= <-]; auto.
  - intros [= <-]. auto.
Qed.

Lemma earliest_least (l : list Timer) (t : Timer) :
  earliest l = Some t -> forall u, In u l -> timer_due t <= timer_due u.
Proof.
  revert t. induction l as [|x r IH]; simpl; intros t; [discriminate|].
  destruct (earliest r) as [v|] eqn:E.
  - destruct (Z.ltb_spec (timer_due v) (timer_due x)); intros [= <-] u [<-|Hu];
      try lia; specialize (IH v eq_refl u Hu); lia.
  - intros [= <-] u [<-|Hu]; [lia|].
    destruct r; [destruct Hu|]. simpl in E. destruct (earliest r); [|discriminate].
    destruct (Z.ltb _ _); discriminate.
Qed.

Lemma next_due_Some (deadline : Z) (l : list Timer) (t : Timer) :
  next_due deadline l = Some t -> In t l /\ timer_due t <= deadline.
Proof.
  unfold next_due. destruct (earliest l) as [u|] eqn:E; [|discriminate].
  destruct (Z.leb_spec (timer_due u) deadline); intros [= <-].
  split; [apply earliest_In, E|lia].
Qed.

Lemma next_due_None (deadline : Z) (l : list Timer) :
  next_due deadline l = None -> forall u, In u l -> deadline < timer_due u.
Proof.
  unfold next_due. destruct (earliest l) as [t|] eqn:E.
  - destruct (Z.leb_spec (timer_due t) deadline); [discriminate|].
    intros _ u Hu. pose proof (earliest_least l t E u Hu). lia.
  - intros _ u Hu. destruct l as [|x r]; [destruct Hu|]. simpl in E.
    destruct (earliest r); [|discriminate]. destruct (Z.ltb _ _); discriminate.
Qed.

(** One round per pending timer is enough: when [elapse] returns, no
    timer that was due is left. *)
Lemma run_due_complete (deadline : Z) (n : nat) :
  forall w : World,
    (length (timers (host w)) <= n)%nat ->
    next_due deadline (timers (host (run_due n deadline w))) = None.
Proof.
  induction n as [|n IH]; intros w Hlen; simpl.
  - destruct (timers (host w)); [reflexivity|simpl in Hlen; lia].
  - destruct (next_due deadline (timers (host w))) as [t|] eqn:E; [|exact E].
    apply IH. rewrite fire_world. simpl.
    apply next_due_Some in E as [Hin _].
    pose proof (remove_timer_shrinks _ _ Hin). lia.
Qed.

Lemma elapse_complete (d : Z) (w : World) (u : Timer) :
  In u (timers (host (snd (elapse d w)))) -> now (host w) + d < timer_due u.
Proof.
  unfold elapse. simpl. apply next_due_None.
  apply run_due_complete. lia.
Qed.

Lemma elapse_none (d : Z) (w : World) :
  timers (host w) = [] ->
  snd (elapse d w) = set_now (Z.max (now (host w)) (now (host w) + d)) w.
Proof.
  intros E. unfold elapse. rewrite E. reflexivity.
Qed.

Lemma elapse_early (d : Z) (w : World) (t : Timer) :
  timers (host w) = [t] -> now (host w) + d < timer_due t ->
  snd (elapse d w) = set_now (Z.max (now (host w)) (now (host w) + d)) w.
Proof.
  intros E Hlt. unfold elapse. rewrite E. simpl. rewrite E.
  unfold next_due. simpl.
  destruct (Z.leb_spec (timer_due t) (now (host w) + d)); [lia|reflexivity].
Qed.

Lemma elapse_due (d : Z) (w : World) (t : Timer) :
  timers (host w) = [t] -> timer_due t <= now (host w) + d ->
  snd (elapse d w) =
  set_now (Z.max (Z.max (now (host w)) (timer_due t)) (now (host w) + d))
    (snd (fire t w)).
Proof.
  intros E Hle. unfold elapse. rewrite E. simpl. rewrite E.
  unfold next_due. simpl.
  destruct (Z.leb_spec (timer_due t) (now (host w) + d)); [|lia].
  rewrite fire_world. reflexivity.
Qed.

(** [elapse] is an execution: waiting, and timers firing when due. *)
Lemma steps_trans (w1 w2 w3 : World) : steps w1 w2 -> steps w2 w3 -> steps w1 w3.
Proof.
  intros H12 H23. induction H23 as [|i w' H IH En]; [exact H12|].
  apply steps_step; auto.
Qed.

Lemma steps_input (i : Input) (w : World) : enabled i w -> steps w (exec i w).
Proof. intros En. apply steps_step; [apply steps_refl|exact En]. Qed.

Lemma steps_set_now (t : Z) (w : World) :
  now (host w) <= t -> steps w (set_now t w).
Proof.
  intros H. replace t with (now (host w) + (t - now (host w))) by lia.
  apply (steps_input (Wait (t - now (host w)))). simpl. lia.
Qed.

Lemma steps_fire (t : Timer) (w : World) :
  In t (timers (host w)) -> steps w (snd (fire t w)).
Proof.
  intros Hin.
  assert (E : snd (fire t w) =
              snd (fire t (set_now (Z.max (now (host w)) (timer_due t)) w))).
  { rewrite !fire_world. simpl. f_equal. f_equal. lia. }
  rewrite E.
  apply steps_trans with (set_now (Z.max (now (host w)) (timer_due t)) w).
  - apply steps_set_now. lia.
  - apply (steps_input (Timeout t)). simpl. split; [exact Hin|lia].
Qed.

Lemma steps_run_due (deadline : Z) (n : nat) :
  forall w : World, steps w (run_due n deadline w).
Proof.
  induction n as [|n IH]; intros w; simpl; [apply steps_refl|].
  destruct (next_due deadline (timers (host w))) as [t|] eqn:E; [|apply steps_refl].
  apply next_due_Some in E as [Hin _].
  eapply steps_trans; [apply steps_fire, Hin|apply IH].
Qed.

Lemma steps_elapse (d : Z) (w : World) : steps w (snd (elapse d w)).
Proof.
  unfold elapse. simpl. eapply steps_trans; [apply steps_run_due|].
  apply steps_set_now. lia.
Qed.

(** * The claims *)

(** C1. Every call of [open], whatever the state, performs these effects
    in this order: it sets [isOpen_]; registers the click listener on the
    dialog surface, the keydown listener on the document, and one and the
    same listener for the window's resize and orientationchange; adds the
    opening marker; calls [computeBoundingRect]; adds the open marker and
    the body's scroll-lock marker; calls [notifyOpening]; calls [layout]
    (whose only immediate effect is the animation-frame request); clears
    the timer held in [animationTimer_]; and sets a timer for the open
    duration, keeping its handle. That timer's callback removes the
    opening and closing markers, then calls [trapFocus], then
    [notifyOpened]. *)
Theorem open_effects_in_order (w : World) :
  let id := nextTimerId (host w) in
  let opened := snd (open w) in
  trace opened =
    trace w ++
    [ Write_isOpen_ true;
      Adapter (registerInteractionHandler "click" (dialogClickHandler_ (this w)));
      Adapter (registerDocumentHandler "keydown" (documentKeyDownHandler_ (this w)));
      Adapter (registerWindowHandler "resize" (windowResizeHandler_ (this w)));
      Adapter (registerWindowHandler "orientationchange"
                 (windowResizeHandler_ (this w)));
      Adapter (addClass (OPENING cssClasses));
      Adapter computeBoundingRect;
      Adapter (addClass (OPEN cssClasses));
      Adapter (addBodyClass (SCROLL_LOCK cssClasses));
      Adapter notifyOpening;
      RequestAnimationFrame LayoutFrame;
      ClearTimeout (animationTimer_ (this w));
      SetTimeout OpenTimerEnd OPEN_MS id;
      Write_animationTimer_ id ] /\
  (forall v : World,
     trace (snd (layout v)) = trace v ++ [RequestAnimationFrame LayoutFrame]) /\
  this opened = set_fields true id (this w) /\
  adapter_ opened = run_adapter (open_calls (this w)) (adapter_ w) /\
  frames (host opened) = frames (host w) ++ [LayoutFrame] /\
  timers (host opened) =
    remove_timer (animationTimer_ (this w)) (timers (host w)) ++
    [mkTimer id (now (host w) + Z.max 0 OPEN_MS) OpenTimerEnd] /\
  (forall v : World,
     trace (snd (run_timer_callback OpenTimerEnd v)) =
     trace v ++
     [ Adapter (removeClass (OPENING cssClasses));
       Adapter (removeClass (CLOSING cssClasses));
       Adapter trapFocus;
       Adapter notifyOpened ]).
Proof.
  cbv zeta.
  assert (Hcb : forall v : World,
            trace (snd (run_timer_callback OpenTimerEnd v)) =
            trace v ++ map Adapter (timer_end_calls OpenTimerEnd)).
  { intros v. rewrite run_timer_callback_world. reflexivity. }
  rewrite open_world. repeat split; try reflexivity. exact Hcb.
Qed.

(** The listener fields never change: in every reachable world they hold
    the function objects the constructor made. *)
Lemma reachable_listeners (w : World) :
  reachable w ->
  dialogClickHandler_ (this w) = dialogClickHandler_ new_foundation /\
  windowResizeHandler_ (this w) = windowResizeHandler_ new_foundation /\
  documentKeyDownHandler_ (this w) = documentKeyDownHandler_ new_foundation.
Proof. intros R. apply Inv_listeners, reachable_Inv, R. Qed.

Lemma wired_In (tr : list Effect) (e : Effect) :
  forallb wired tr = true -> In e tr -> wired e = true.
Proof. intros H. apply (proj1 (forallb_forall wired tr) H). Qed.

(** C2. Every call of [close], in a world some execution reaches,
    performs these effects in this order: it clears [isOpen_];
    deregisters the click, keydown, resize and orientationchange
    listeners; calls [releaseFocus]; adds the closing marker; removes the
    open marker and the body's scroll-lock marker; calls [notifyClosing]
    with the action; clears the timer held in [animationTimer_]; and sets
    a timer for the close duration, whose callback removes the opening and
    closing markers and calls [notifyClosed] with the same action. The
    function objects it deregisters are those the constructor made, and
    every registration and deregistration of the whole execution passed
    them. *)
Theorem close_effects_in_order (action : JSValue) (w : World) :
  reachable w ->
  let id := nextTimerId (host w) in
  let closed := snd (close action w) in
  trace closed =
    trace w ++
    [ Write_isOpen_ false;
      Adapter (deregisterInteractionHandler "click"
                 (dialogClickHandler_ new_foundation));
      Adapter (deregisterDocumentHandler "keydown"
                 (documentKeyDownHandler_ new_foundation));
      Adapter (deregisterWindowHandler "resize"
                 (windowResizeHandler_ new_foundation));
      Adapter (deregisterWindowHandler "orientationchange"
                 (windowResizeHandler_ new_foundation));
      Adapter releaseFocus;
      Adapter (addClass (CLOSING cssClasses));
      Adapter (removeClass (OPEN cssClasses));
      Adapter (removeBodyClass (SCROLL_LOCK cssClasses));
      Adapter (notifyClosing action);
      ClearTimeout (animationTimer_ (this w));
      SetTimeout (CloseTimerEnd action) CLOSE_MS id;
      Write_animationTimer_ id ] /\
  (forall ev h,
     In (Adapter (registerInteractionHandler ev h)) (trace closed) \/
     In (Adapter (deregisterInteractionHandler ev h)) (trace closed) ->
     ev = "click" /\ h = dialogClickHandler_ new_foundation) /\
  (forall ev h,
     In (Adapter (registerDocumentHandler ev h)) (trace closed) \/
     In (Adapter (deregisterDocumentHandler ev h)) (trace closed) ->
     ev = "keydown" /\ h = documentKeyDownHandler_ new_foundation) /\
  (forall ev h,
     In (Adapter (registerWindowHandler ev h)) (trace closed) \/
     In (Adapter (deregisterWindowHandler ev h)) (trace closed) ->
     (ev = "resize" \/ ev = "orientationchange") /\
     h = windowResizeHandler_ new_foundation) /\
  this closed = set_fields false id (this w) /\
  adapter_ closed = run_adapter (close_calls (this w) action) (adapter_ w) /\
  timers (host closed) =
    [mkTimer id (now (host w) + Z.max 0 CLOSE_MS) (CloseTimerEnd action)] /\
  (forall v : World,
     trace (snd (run_timer_callback (CloseTimerEnd action) v)) =
     trace v ++
     [ Adapter (removeClass (OPENING cssClasses));
       Adapter (removeClass (CLOSING cssClasses));
       Adapter (notifyClosed action) ]).
Proof.
  intros R. cbv zeta.
  pose proof (reachable_Inv w R) as I.
  pose proof (Inv_change _ _ I (close_change action w I)) as I'.
  pose proof (inv_wired _ I') as W.
  destruct (Inv_listeners w I) as (Hc & Hr & Hk).
  split; [rewrite close_world; simpl; rewrite Hc, Hr, Hk; reflexivity|].
  split; [|split; [|split]].
  - intros ev h [H|H]; apply (wired_In _ _ W) in H; simpl in H;
      apply bool_decide_eq_true_1 in H; exact H.
  - intros ev h [H|H]; apply (wired_In _ _ W) in H; simpl in H;
      apply bool_decide_eq_true_1 in H; exact H.
  - intros ev h [H|H]; apply (wired_In _ _ W) in H; simpl in H;
      apply bool_decide_eq_true_1 in H; exact H.
  - assert (Hcb : forall v : World,
              trace (snd (run_timer_callback (CloseTimerEnd action) v)) =
              trace v ++ map Adapter (timer_end_calls (CloseTimerEnd action))).
    { intros v. rewrite run_timer_callback_world. reflexivity. }
    rewrite close_world. simpl. rewrite (Inv_cancelled w I).
    repeat split; try reflexivity. exact Hcb.
Qed.



Lemma issued_change (w w' : World) :
  change w w' -> nextTimerId (host w) <= nextTimerId (host w').
Proof.
  intros [new _ Hn _ _ _ | new _ Hn _ _ _
         | o cb ms due pre post _ Hn _ _ _ _
         | t c mid _ _ Hn _ _ _ _]; lia.
Qed.

Lemma issued_changes (w w' : World) :
  rtc change w w' -> nextTimerId (host w) <= nextTimerId (host w').
Proof.
  intros H. induction H as [|w w1 w2 H1 _ IH]; [lia|].
  pose proof (issued_change _ _ H1). lia.
Qed.

Lemma issued_steps (w w' : World) :
  Inv w -> steps w w' -> nextTimerId (host w) <= nextTimerId (host w').
Proof.
  intros I H. induction H as [|i w' H IH En]; [lia|].
  pose proof (issued_changes _ _ (exec_changes i w' (Inv_steps _ _ I H) En)). lia.
Qed.

Lemma close_then_elapse (action : JSValue) (w : World) (d : Z) :
  Inv w ->
  let closed := snd (close action w) in
  (d < Z.max 0 CLOSE_MS -> trace (snd (elapse d closed)) = trace closed) /\
  (Z.max 0 CLOSE_MS <= d ->
   trace (snd (elapse d closed)) =
     trace closed ++
     [ TimerFired (nextTimerId (host w));
       Adapter (removeClass (OPENING cssClasses));
       Adapter (removeClass (CLOSING cssClasses));
       Adapter (notifyClosed action) ] /\
   timers (host (snd (elapse d closed))) = []).
Proof.
  intros I. cbv zeta.
  set (t := mkTimer (nextTimerId (host w)) (now (host w) + Z.max 0 CLOSE_MS)
              (CloseTimerEnd action)).
  assert (E : timers (host (snd (close action w))) = [t]).
  { rewrite close_world. simpl. rewrite (Inv_cancelled w I). reflexivity. }
  assert (N : now (host (snd (close action w))) = now (host w)).
  { rewrite close_world. reflexivity. }
  generalize dependent (snd (close action w)). intros closed E N.
  split; intros Hd.
  - rewrite (elapse_early d _ t E); [reflexivity|]. rewrite N. simpl. lia.
  - rewrite (elapse_due d _ t E) by (rewrite N; simpl; lia).
    rewrite fire_world. simpl. rewrite E.
    split; [reflexivity|]. unfold t. apply remove_timer_single.
Qed.

(** C4. [open] is called in a reachable world [w0]; its timer gets the
    handle [nextTimerId (host w0)]. Whatever happens next, as long as that
    timer has not fired when [close] is called (in [w1]): the timer never
    fires afterwards, in any continuation, so the [notifyOpened] of that
    [open] is never delivered, and the only timer pending is the one of
    [close]. If the page is then left alone, nothing is delivered before
    the close duration has passed, and once it has, exactly one
    [notifyClosed], carrying the action, and no [notifyOpened]. *)
Theorem close_supersedes_open (action : JSValue) (w0 w1 : World) :
  reachable w0 ->
  steps (snd (open w0)) w1 ->
  count (is_fired (nextTimerId (host w0))) (trace w1) = 0%nat ->
  let closed := snd (close action w1) in
  (forall w3, steps closed w3 ->
     count (is_fired (nextTimerId (host w0))) (trace w3) = 0%nat) /\
  timers (host closed) =
    [mkTimer (nextTimerId (host w1)) (now (host w1) + Z.max 0 CLOSE_MS)
       (CloseTimerEnd action)] /\
  (forall d, d < Z.max 0 CLOSE_MS ->
     trace (snd (elapse d closed)) = trace closed) /\
  (forall d, Z.max 0 CLOSE_MS <= d ->
     trace (snd (elapse d closed)) =
       trace closed ++
       [ TimerFired (nextTimerId (host w1));
         Adapter (removeClass (OPENING cssClasses));
         Adapter (removeClass (CLOSING cssClasses));
         Adapter (notifyClosed action) ] /\
     timers (host (snd (elapse d closed))) = []) /\
  (forall d,
     count is_notifyOpened (trace (snd (elapse d closed))) =
     count is_notifyOpened (trace w1)).
Proof.
  intros R H01 Hnot. cbv zeta.
  pose proof (reachable_Inv w0 R) as I0.
  pose proof (Inv_change _ _ I0 (open_change w0 I0)) as Io.
  pose proof (Inv_steps _ _ Io H01) as I1.
  pose proof (close_change action w1 I1) as Hc.
  pose proof (Inv_change _ _ I1 Hc) as I2.
  assert (Hlt : nextTimerId (host w0) < nextTimerId (host w1)).
  { pose proof (issued_steps _ _ Io H01) as H. rewrite open_world in H.
    simpl in H. lia. }
  assert (E : timers (host (snd (close action w1))) =
              [mkTimer (nextTimerId (host w1))
                 (now (host w1) + Z.max 0 CLOSE_MS) (CloseTimerEnd action)]).
  { rewrite close_world. simpl. rewrite (Inv_cancelled w1 I1). reflexivity. }
  assert (T : trace (snd (close action w1)) =
              trace w1 ++
              Write_isOpen_ false :: map Adapter (close_calls (this w1) action) ++
              [ ClearTimeout (animationTimer_ (this w1));
                SetTimeout (CloseTimerEnd action) CLOSE_MS (nextTimerId (host w1));
                Write_animationTimer_ (nextTimerId (host w1)) ]).
  { rewrite close_world. reflexivity. }
  assert (S2 : spent (nextTimerId (host w0)) (snd (close action w1))).
  { split.
    - rewrite close_world. simpl. lia.
    - rewrite E. intros t [<-|[]]. simpl. lia. }
  assert (C2 : count (is_fired (nextTimerId (host w0)))
                 (trace (snd (close action w1))) = 0%nat).
  { rewrite T, count_app, Hnot. reflexivity. }
  destruct (close_then_elapse action w1 0 I1) as [_ _].
  split; [|split; [exact E|split; [|split]]].
  - intros w3 H23.
    destruct (spent_steps _ _ _ I2 H23 S2) as [_ C3]. congruence.
  - intros d Hd. apply (close_then_elapse action w1 d I1). exact Hd.
  - intros d Hd. apply (close_then_elapse action w1 d I1). exact Hd.
  - intros d. destruct (Z.lt_ge_cases d (Z.max 0 CLOSE_MS)) as [Hd|Hd].
    + rewrite (proj1 (close_then_elapse action w1 d I1) Hd).
      rewrite T, count_app. simpl. lia.
    + rewrite (proj1 (proj2 (close_then_elapse action w1 d I1) Hd)).
      rewrite T, !count_app. simpl. lia.
Qed.

(** C5. Every call of [destroy], in a world some execution reaches.
    When the dialog is open it first runs all of [close] with the destroy
    action (the listeners are deregistered, focus and the scroll lock are
    released); then, open or not, in the same call and without waiting
    for a timer, it removes the opening and closing markers and clears the
    timer held in [animationTimer_]. When it returns the dialog is closed
    and no timer is pending: however much time passes nothing is
    delivered, and as long as no transition is started no timer appears
    and no completion notification ([notifyOpened], [notifyClosed]) is
    delivered. *)
Theorem destroy_cleans_up (w : World) :
  reachable w ->
  let destroyed := snd (destroy w) in
  (isOpen_ (this w) = true ->
   trace destroyed =
     trace (snd (close (JStr (DESTROY_ACTION strings)) w)) ++
     [ Adapter (removeClass (OPENING cssClasses));
       Adapter (removeClass (CLOSING cssClasses));
       ClearTimeout (nextTimerId (host w)) ] /\
   trace (snd (close (JStr (DESTROY_ACTION strings)) w)) =
     trace w ++
     Write_isOpen_ false ::
     map Adapter (close_calls (this w) (JStr (DESTROY_ACTION strings))) ++
     [ ClearTimeout (animationTimer_ (this w));
       SetTimeout (CloseTimerEnd (JStr (DESTROY_ACTION strings))) CLOSE_MS
         (nextTimerId (host w));
       Write_animationTimer_ (nextTimerId (host w)) ]) /\
  (isOpen_ (this w) = false ->
   trace destroyed =
     trace w ++
     [ Adapter (removeClass (OPENING cssClasses));
       Adapter (removeClass (CLOSING cssClasses));
       ClearTimeout (animationTimer_ (this w)) ]) /\
  isOpen_ (this destroyed) = false /\
  timers (host destroyed) = [] /\
  (forall d, trace (snd (elapse d destroyed)) = trace destroyed) /\
  (forall w', idles destroyed w' ->
     timers (host w') = [] /\
     count is_completion (trace w') = count is_completion (trace destroyed)).
Proof.
  intros R. cbv zeta. pose proof (reachable_Inv w R) as I.
  assert (I1 : Inv (if isOpen_ (this w)
                    then snd (close (JStr (DESTROY_ACTION strings)) w) else w)).
  { destruct (isOpen_ (this w)); [|exact I].
    exact (Inv_change _ _ I (close_change _ w I)). }
  assert (E : timers (host (snd (destroy w))) = []).
  { rewrite destroy_world. simpl. apply Inv_cancelled, I1. }
  assert (O : isOpen_ (this (snd (destroy w))) = false).
  { rewrite destroy_world. cbv zeta.
    destruct (isOpen_ (this w)) eqn:O; [|exact O].
    rewrite close_world. reflexivity. }
  split; [|split; [|split; [exact O|split; [exact E|split]]]].
  - intros Ho. rewrite destroy_world. cbv zeta. rewrite Ho.
    rewrite close_world. split; reflexivity.
  - intros Ho. rewrite destroy_world. cbv zeta. rewrite Ho. reflexivity.
  - intros d. rewrite (elapse_none d _ E). reflexivity.
  - intros w' H. pose proof (idles_calm _ _ O E H) as C. split.
    + destruct C as (new & _ & _ & Ht & _). rewrite Ht. exact E.
    + apply calm_count; [|exact C].
      intros e He. destruct e as [| |c| | | | |]; try reflexivity; try discriminate.
      destruct c; try reflexivity; discriminate.
Qed.

(** C6. [isOpen] only reads the flag: it returns [isOpen_] and leaves the
    world as it was. The write of the flag is the first effect of [open]
    and of [close], before any adapter call; so right after [open]
    returns, with its timer still pending, [isOpen] returns true, and
    right after [close] returns it returns false. *)
Theorem isOpen_reflects_target (action : JSValue) (w : World) :
  isOpen w = (isOpen_ (this w), w) /\
  (exists rest,
     trace (snd (open w)) = trace w ++ Write_isOpen_ true :: rest) /\
  fst (isOpen (snd (open w))) = true /\
  In (mkTimer (nextTimerId (host w)) (now (host w) + Z.max 0 OPEN_MS) OpenTimerEnd)
     (timers (host (snd (open w)))) /\
  (exists rest,
     trace (snd (close action w)) = trace w ++ Write_isOpen_ false :: rest) /\
  fst (isOpen (snd (close action w))) = false.
Proof.
  split; [reflexivity|]. rewrite open_world, close_world. simpl.
  split; [eexists; reflexivity|]. split; [reflexivity|].
  split; [apply in_or_app; right; left; reflexivity|].
  split; [eexists; reflexivity|reflexivity].
Qed.

Lemma strict_eq_true (a b : JSValue) : strict_eq a b = true <-> a = b.
Proof. unfold strict_eq. apply bool_decide_eq_true. Qed.

Lemma strict_eq_false (a b : JSValue) : strict_eq a b = false <-> a <> b.
Proof. unfold strict_eq. apply bool_decide_eq_false. Qed.

(** C7. A keydown event that reaches the document listener of a
    reachable world (the dialog open or not) runs
    [handleDocumentKeyDown_]: when the event's [key] is "Escape" or its
    [keyCode] is 27, that is a call of [close] with the escape action;
    for any other key nothing happens, the world is left as it was. *)
Theorem escape_key_closes (evt : Event) (w : World) :
  reachable w ->
  let deliver := run_listener (documentKeyDownHandler_ (this w)) evt in
  deliver w = handleDocumentKeyDown_ evt w /\
  (key evt = JStr "Escape" \/ keyCode evt = JNum 27 ->
   deliver w = close (JStr (ESCAPE_ACTION strings)) w) /\
  (key evt <> JStr "Escape" -> keyCode evt <> JNum 27 ->
   deliver w = (tt, w)).
Proof.
  intros R. cbv zeta.
  destruct (reachable_listeners w R) as (_ & _ & Hk). rewrite Hk.
  unfold run_listener. simpl. unfold handleDocumentKeyDown_.
  split; [reflexivity|]. split.
  - intros [H|H]; apply strict_eq_true in H; rewrite H, ?orb_true_r; reflexivity.
  - intros H1 H2. apply strict_eq_false in H1, H2. rewrite H1, H2. reflexivity.
Qed.

Lemma handleDialogClick_falsy (evt : Event) (w : World) :
  truthy (fst (adapter (getActionFromEvent evt) (adapter_ w))) = false ->
  handleDialogClick_ evt w = (tt, snd (call (getActionFromEvent evt) w)).
Proof.
  intros H. unfold handleDialogClick_, bind. simpl. rewrite H. reflexivity.
Qed.

Lemma handleDialogClick_truthy (evt : Event) (w : World) :
  truthy (fst (adapter (getActionFromEvent evt) (adapter_ w))) = true ->
  handleDialogClick_ evt w =
  close (fst (adapter (getActionFromEvent evt) (adapter_ w)))
    (snd (call (getActionFromEvent evt) w)).
Proof.
  intros H. unfold handleDialogClick_, bind. simpl. rewrite H. reflexivity.
Qed.

(** C8, amended. A click that reaches the surface listener of a
    reachable world makes the foundation ask the adapter for the event's
    action, which touches neither its fields nor the host. When the
    answer is falsy (undefined, null, the empty string) nothing else
    happens: the dialog is not closed. When it is truthy (a non-empty
    string such as "accept") the foundation calls [close] with it:
    [notifyClosing] receives that very value and, once the close duration
    has passed, so does [notifyClosed]. *)
Theorem click_closes_on_truthy_action (evt : Event) (w : World) :
  reachable w ->
  let action := fst (adapter (getActionFromEvent evt) (adapter_ w)) in
  let asked := snd (call (getActionFromEvent evt) w) in
  let clicked := snd (run_listener (dialogClickHandler_ (this w)) evt w) in
  this asked = this w /\
  host asked = host w /\
  trace asked = trace w ++ [Adapter (getActionFromEvent evt)] /\
  (truthy action = false -> clicked = asked) /\
  (truthy action = true ->
   clicked = snd (close action asked) /\
   In (Adapter (notifyClosing action)) (trace clicked) /\
   forall d, Z.max 0 CLOSE_MS <= d ->
     trace (snd (elapse d clicked)) =
       trace clicked ++
       [ TimerFired (nextTimerId (host w));
         Adapter (removeClass (OPENING cssClasses));
         Adapter (removeClass (CLOSING cssClasses));
         Adapter (notifyClosed action) ]) /\
  truthy JUndefined = false /\ truthy JNull = false /\ truthy (JStr "") = false /\
  truthy (JStr "accept") = true.
Proof.
  intros R. cbv zeta. pose proof (reachable_Inv w R) as I.
  destruct (reachable_listeners w R) as (Hc & _ & _). rewrite Hc.
  change (run_listener (dialogClickHandler_ new_foundation) evt w)
    with (handleDialogClick_ evt w).
  repeat (split; [reflexivity|]).
  split; [|split; [|repeat split; reflexivity]].
  - intros H. rewrite (handleDialogClick_falsy evt w H). reflexivity.
  - intros H. rewrite (handleDialogClick_truthy evt w H).
    split; [reflexivity|].
    pose proof (Inv_call (getActionFromEvent evt) w eq_refl I) as Ia.
    split.
    + rewrite close_world. simpl. apply in_or_app. right. simpl. tauto.
    + intros d Hd.
      apply (proj2 (close_then_elapse _ (snd (call (getActionFromEvent evt) w)) d Ia) Hd).
Qed.

(** C10. A click whose action the adapter reports as a falsy value, the
    empty string in particular, is treated like a click with no action
    (undefined or null): the foundation asks for the action and does
    nothing else. [close] is not called, so the fields, the timers and
    the frames are as before and the trace gains only the question. *)
Theorem falsy_action_is_no_action (evt : Event) (w : World) :
  truthy (fst (adapter (getActionFromEvent evt) (adapter_ w))) = false ->
  let clicked := snd (handleDialogClick_ evt w) in
  this clicked = this w /\
  host clicked = host w /\
  trace clicked = trace w ++ [Adapter (getActionFromEvent evt)] /\
  truthy (JStr "") = false /\ truthy JUndefined = false /\ truthy JNull = false.
Proof.
  intros H. cbv zeta. rewrite (handleDialogClick_falsy evt w H).
  repeat split; reflexivity.
Qed.

(** * Beyond the claims: the life cycle as a whole *)

Local Abbreviation move := (move adapter cssClasses numbers).
Local Abbreviation Cycle := (@Cycle A cssClasses).
Local Abbreviation Marked := (@Marked A cssClasses).
Local Abbreviation distinct_markers := (distinct_markers cssClasses).

(** ** Every input is a chain of moves *)

Lemma open_move (w : World) : Inv w -> move w (snd (open w)).
Proof.
  intros I. destruct (Inv_listeners w I) as (Hc & Hr & Hk).
  apply (move_open _ _ _ _ _ (nextTimerId (host w))
           (now (host w) + Z.max 0 OPEN_MS) (animationTimer_ (this w)));
    rewrite open_world; simpl.
  - reflexivity.
  - rewrite (Inv_cancelled w I). reflexivity.
  - unfold open_calls. rewrite Hc, Hr, Hk. reflexivity.
Qed.

Lemma close_move (action : JSValue) (w : World) :
  Inv w -> move w (snd (close action w)).
Proof.
  intros I. destruct (Inv_listeners w I) as (Hc & Hr & Hk).
  apply (move_close _ _ _ _ _ action (nextTimerId (host w))
           (now (host w) + Z.max 0 CLOSE_MS) (animationTimer_ (this w)));
    rewrite close_world; simpl.
  - reflexivity.
  - rewrite (Inv_cancelled w I). reflexivity.
  - unfold close_calls. rewrite Hc, Hr, Hk. reflexivity.
Qed.

Lemma destroy_moves (w : World) : Inv w -> rtc move w (snd (destroy w)).
Proof.
  intros I. rewrite destroy_world.
  set (w1 := if isOpen_ (this w)
             then snd (close (JStr (DESTROY_ACTION strings)) w) else w).
  assert (H1 : rtc move w w1 /\ Inv w1).
  { subst w1. destruct (isOpen_ (this w)).
    - split; [apply rtc_once, close_move, I|].
      exact (Inv_change _ _ I (close_change _ w I)).
    - split; [apply rtc_refl|exact I]. }
  destruct H1 as [H1 I1]. eapply rtc_r; [exact H1|].
  apply (move_cleanup _ _ _ _ _ (animationTimer_ (this w1))); simpl;
    [reflexivity| |reflexivity].
  apply Inv_cancelled, I1.
Qed.

Lemma fire_move (t : Timer) (w : World) :
  Inv w -> In t (timers (host w)) -> move w (snd (fire t w)).
Proof.
  intros I Hin. destruct (Inv_timer w t I Hin) as (E & Hid & _).
  apply (move_fire _ _ _ _ _ t); [exact E| | |]; rewrite fire_world; simpl;
    try reflexivity.
  rewrite Hid. apply Inv_cancelled, I.
Qed.

Lemma frames_moves (q : list FrameCallback) :
  forall w : World,
    rtc move w
      (fold_left
         (fun w' cb =>
            snd (bind (emit (FrameRun cb)) (fun _ => run_frame_callback cb) w'))
         q w).
Proof.
  induction q as [|cb q IH]; intros w; simpl; [apply rtc_refl|].
  eapply rtc_l; [|apply IH].
  unfold bind. rewrite run_frame_callback_world. destruct cb.
  apply (move_frame _ _ _ _ _ (adapter_ w)); simpl; try reflexivity.
  rewrite <- app_assoc. reflexivity.
Qed.

Lemma animation_frame_moves (w : World) : rtc move w (snd (animation_frame w)).
Proof.
  unfold animation_frame. simpl. eapply rtc_l; [|apply frames_moves].
  apply (move_inert _ _ _ _ _ []); simpl; try reflexivity.
  rewrite app_nil_r. reflexivity.
Qed.

Lemma exec_moves (i : Input) (w : World) :
  Inv w -> enabled i w -> rtc move w (exec i w).
Proof.
  intros I En. destruct i as [|action| | | |l evt|t| |d]; simpl.
  - apply rtc_once, open_move, I.
  - apply rtc_once, close_move, I.
  - apply rtc_refl.
  - apply rtc_once, (move_inert _ _ _ _ _ [RequestAnimationFrame LayoutFrame]);
      reflexivity.
  - apply destroy_moves, I.
  - unfold run_listener. destruct (listener_body l).
    + unfold handleDialogClick_, bind.
      assert (H1 : move w (snd (call (getActionFromEvent evt) w))).
      { apply (move_inert _ _ _ _ _ [Adapter (getActionFromEvent evt)]);
          reflexivity. }
      destruct (truthy (fst (call (getActionFromEvent evt) w))).
      * eapply rtc_l; [exact H1|]. apply rtc_once, close_move.
        apply Inv_call; [reflexivity|exact I].
      * apply rtc_once. exact H1.
    + apply rtc_once, (move_inert _ _ _ _ _ [RequestAnimationFrame LayoutFrame]);
        reflexivity.
    + unfold handleDocumentKeyDown_.
      destruct (strict_eq (key evt) (JStr "Escape") ||
                strict_eq (keyCode evt) (JNum 27)).
      * apply rtc_once, close_move, I.
      * apply rtc_refl.
  - apply rtc_once, fire_move; [exact I|apply En].
  - apply animation_frame_moves.
  - apply rtc_once, (move_inert _ _ _ _ _ []); simpl; try reflexivity.
    rewrite app_nil_r. reflexivity.
Qed.

(** ** Reading the life cycle off an extended trace *)

Lemma phase_from_app (tr new : list Effect) :
  forall p,
    phase_from p (tr ++ new) =
    match phase_from p tr with
    | Some q => phase_from q new
    | None => None
    end.
Proof.
  induction tr as [|e r IH]; intros p; simpl; [reflexivity|].
  destruct (next_phase p e); [apply IH|reflexivity].
Qed.

Lemma toggled_from_app (on off : Effect) (tr new : list Effect) :
  forall b,
    toggled_from on off b (tr ++ new) =
    toggled_from on off (toggled_from on off b tr) new.
Proof.
  induction tr as [|e r IH]; intros b; simpl; [reflexivity|apply IH].
Qed.

Lemma toggle_on (on off : Effect) (b : bool) : toggle on off b on = true.
Proof. unfold toggle. rewrite bool_decide_eq_true_2; reflexivity. Qed.

Lemma toggle_off (on off : Effect) (b : bool) :
  off <> on -> toggle on off b off = false.
Proof.
  intros H. unfold toggle. rewrite (bool_decide_eq_false_2 _ H).
  rewrite bool_decide_eq_true_2; reflexivity.
Qed.

Lemma toggle_other (on off : Effect) (b : bool) (e : Effect) :
  e <> on -> e <> off -> toggle on off b e = b.
Proof.
  intros H1 H2. unfold toggle.
  rewrite (bool_decide_eq_false_2 _ H1), (bool_decide_eq_false_2 _ H2).
  reflexivity.
Qed.

Lemma phase_from_inert (new : list Effect) :
  forallb inert new = true -> forall p, phase_from p new = Some p.
Proof.
  induction new as [|e r IH]; simpl; [reflexivity|].
  intros [He Hr]%andb_prop p.
  destruct e as [| |c| | |f| |]; try discriminate; [|apply IH, Hr].
  destruct c; try discriminate. simpl. apply IH, Hr.
Qed.

Lemma toggled_from_inert (on off : Effect) (new : list Effect) :
  inert on = false -> inert off = false -> forallb inert new = true ->
  forall b, toggled_from on off b new = b.
Proof.
  intros Hon Hoff. induction new as [|e r IH]; simpl; [reflexivity|].
  intros [He Hr]%andb_prop b. rewrite toggle_other; [apply IH, Hr| |];
    intros ->; congruence.
Qed.

Ltac unfold_readers :=
  unfold has_class, has_body_class, focus_trapped, listens_on_surface,
    listens_on_document, listens_on_window, toggled in *.

Ltac walk :=
  cbn [toggled_from map app];
  repeat first
    [ rewrite toggle_on
    | rewrite toggle_off by congruence
    | rewrite toggle_other by congruence ].

Lemma Cycle_move (p : Phase) (w w' : World) :
  Cycle p w -> move w w' -> exists p', Cycle p' w'.
Proof.
  intros C [id due c Hf Ht Htr | action id due c Hf Ht Htr | c Hf Ht Htr
           | t E Hf Ht Htr | a Hf Ht Htr | new Hf Ht Htr Hq].
  - (* open *)
    exists Opening. destruct C. unfold_readers.
    constructor; unfold_readers; rewrite ?Hf, ?Ht, ?Htr, ?toggled_from_app;
      unfold open_calls; simpl isOpen_; simpl is_open_phase.
    + unfold phase in *. rewrite phase_from_app, cy_phase0. reflexivity.
    + reflexivity.
    + intros t [<-|[]]. reflexivity.
    + walk. reflexivity.
    + walk. reflexivity.
    + walk. reflexivity.
    + walk. reflexivity.
    + walk. reflexivity.
    + reflexivity.
    + discriminate.
  - (* close *)
    exists (Closing action). destruct C. unfold_readers.
    constructor; unfold_readers; rewrite ?Hf, ?Ht, ?Htr, ?toggled_from_app;
      unfold close_calls; simpl isOpen_; simpl is_open_phase.
    + unfold phase in *. rewrite phase_from_app, cy_phase0. reflexivity.
    + reflexivity.
    + intros t [<-|[]]. reflexivity.
    + walk. reflexivity.
    + walk. reflexivity.
    + walk. reflexivity.
    + walk. reflexivity.
    + walk. reflexivity.
    + walk. discriminate.
    + discriminate.
  - (* the cleanup of destroy *)
    exists p. destruct C. unfold_readers.
    constructor; unfold_readers; rewrite ?Hf, ?Ht, ?Htr, ?toggled_from_app.
    + unfold phase in *. rewrite phase_from_app, cy_phase0. reflexivity.
    + assumption.
    + intros t [].
    + walk. assumption.
    + walk. assumption.
    + walk. assumption.
    + walk. assumption.
    + walk. assumption.
    + walk. assumption.
    + walk. assumption.
  - (* a timer fires *)
    destruct C. unfold_readers.
    assert (Hp : callback_phase (timer_callback t) = p).
    { apply cy_timer0. rewrite E. left. reflexivity. }
    destruct (timer_callback t) as [|action]; simpl in Hp; subst p;
      simpl in cy_flag0.
    + exists Opened.
      constructor; unfold_readers; rewrite ?Hf, ?Ht, ?Htr, ?toggled_from_app;
        unfold timer_end_calls.
      * unfold phase in *. rewrite phase_from_app, cy_phase0. reflexivity.
      * assumption.
      * intros u [].
      * walk. assumption.
      * walk. assumption.
      * walk. assumption.
      * walk. assumption.
      * walk. assumption.
      * intros _. assumption.
      * intros _. walk. reflexivity.
    + exists Closed.
      constructor; unfold_readers; rewrite ?Hf, ?Ht, ?Htr, ?toggled_from_app;
        unfold timer_end_calls.
      * unfold phase in *. rewrite phase_from_app, cy_phase0. simpl.
        rewrite bool_decide_eq_true_2; reflexivity.
      * assumption.
      * intros u [].
      * walk. assumption.
      * walk. assumption.
      * walk. assumption.
      * walk. assumption.
      * walk. assumption.
      * walk. assumption.
      * discriminate.
  - (* an animation-frame callback *)
    exists p. destruct C. unfold_readers.
    assert (Hl : exists x y,
              layout_calls a =
              [removeClass (STACKED cssClasses); areButtonsStacked] ++ x ++
              [removeClass (SCROLLABLE cssClasses); isContentScrollable] ++ y /\
              (x = [] \/ x = [addClass (STACKED cssClasses)]) /\
              (y = [] \/ y = [addClass (SCROLLABLE cssClasses)])).
    { unfold layout_calls.
      repeat match goal with |- context [truthy ?r] => destruct (truthy r) end;
        eexists; eexists; split; try reflexivity; auto. }
    destruct Hl as (x & y & Hl & Hx & Hy). rewrite Hl in Htr.
    destruct Hx, Hy; subst x y;
      constructor; unfold_readers; rewrite ?Hf, ?Ht, ?Htr, ?toggled_from_app;
      try assumption;
      try (unfold phase in *; rewrite phase_from_app, cy_phase0; reflexivity);
      try (walk; assumption).
  - (* nothing the life cycle sees *)
    exists p. destruct C. unfold_readers.
    constructor; unfold_readers; rewrite ?Hf, ?Ht, ?Htr, ?toggled_from_app;
      try (rewrite toggled_from_inert by (try reflexivity; exact Hq));
      try assumption.
    unfold phase in *. rewrite phase_from_app, cy_phase0.
    apply phase_from_inert, Hq.
Qed.

Lemma distinct_markers_ne :
  distinct_markers ->
  OPENING cssClasses <> OPEN cssClasses /\
  OPENING cssClasses <> CLOSING cssClasses /\
  OPENING cssClasses <> STACKED cssClasses /\
  OPENING cssClasses <> SCROLLABLE cssClasses /\
  OPEN cssClasses <> CLOSING cssClasses /\
  OPEN cssClasses <> STACKED cssClasses /\
  OPEN cssClasses <> SCROLLABLE cssClasses /\
  CLOSING cssClasses <> STACKED cssClasses /\
  CLOSING cssClasses <> SCROLLABLE cssClasses.
Proof.
  intros H.
  inversion H as [|? ? N1 H1]; subst. inversion H1 as [|? ? N2 H2]; subst.
  inversion H2 as [|? ? N3 H3]; subst.
  rewrite !not_elem_of_cons in N1. rewrite !not_elem_of_cons in N2.
  rewrite !not_elem_of_cons in N3. tauto.
Qed.

Lemma Marked_move (w w' : World) :
  distinct_markers -> Marked w -> move w w' -> Marked w'.
Proof.
  intros Hd [Mo Mg Mc] Hm.
  destruct (distinct_markers_ne Hd)
    as (N1 & N2 & N3 & N4 & N5 & N6 & N7 & N8 & N9).
  destruct Hm as [id due c Hf Ht Htr | action id due c Hf Ht Htr | c Hf Ht Htr
                 | t E Hf Ht Htr | a Hf Ht Htr | new Hf Ht Htr Hq];
    unfold_readers.
  - constructor; unfold_readers; rewrite ?Hf, ?Ht, ?Htr, ?toggled_from_app;
      unfold open_calls; try discriminate.
    walk. reflexivity.
  - constructor; unfold_readers; rewrite ?Hf, ?Ht, ?Htr, ?toggled_from_app;
      unfold close_calls; try discriminate.
    walk. reflexivity.
  - constructor; unfold_readers; rewrite ?Hf, ?Ht, ?Htr, ?toggled_from_app.
    + walk. assumption.
    + intros _. walk. reflexivity.
    + intros _. walk. reflexivity.
  - constructor; unfold_readers; rewrite ?Hf, ?Ht, ?Htr, ?toggled_from_app;
      destruct (timer_callback t); unfold timer_end_calls.
    + walk. assumption.
    + walk. assumption.
    + intros _. walk. reflexivity.
    + intros _. walk. reflexivity.
    + intros _. walk. reflexivity.
    + intros _. walk. reflexivity.
  - assert (Hl : exists x y,
              layout_calls a =
              [removeClass (STACKED cssClasses); areButtonsStacked] ++ x ++
              [removeClass (SCROLLABLE cssClasses); isContentScrollable] ++ y /\
              (x = [] \/ x = [addClass (STACKED cssClasses)]) /\
              (y = [] \/ y = [addClass (SCROLLABLE cssClasses)])).
    { unfold layout_calls.
      repeat match goal with |- context [truthy ?r] => destruct (truthy r) end;
        eexists; eexists; split; try reflexivity; auto. }
    destruct Hl as (x & y & Hl & Hx & Hy). rewrite Hl in Htr.
    destruct Hx, Hy; subst x y;
      constructor; unfold_readers; rewrite ?Hf, ?Ht, ?Htr, ?toggled_from_app;
      try (walk; assumption); intros Hts; walk; auto.
  - constructor; unfold_readers; rewrite ?Hf, ?Ht, ?Htr, ?toggled_from_app;
      try (rewrite toggled_from_inert by (try reflexivity; exact Hq));
      assumption.
Qed.

Lemma Cycle_moves (p : Phase) (w w' : World) :
  Cycle p w -> rtc move w w' -> exists p', Cycle p' w'.
Proof.
  intros C H. revert p C. induction H as [|w w1 w2 H1 _ IH]; intros p C.
  - exists p. exact C.
  - destruct (Cycle_move p _ _ C H1) as [p1 C1]. exact (IH p1 C1).
Qed.

Lemma Marked_moves (w w' : World) :
  distinct_markers -> Marked w -> rtc move w w' -> Marked w'.
Proof.
  intros Hd M H. induction H as [|w w1 w2 H1 _ IH]; [exact M|].
  apply IH. exact (Marked_move _ _ Hd M H1).
Qed.

Lemma Cycle_constructor (a : A) : Cycle Closed (constructor a).
Proof. constructor; simpl; try reflexivity; try discriminate. intros t []. Qed.

Lemma Marked_constructor (a : A) : Marked (constructor a).
Proof. constructor; reflexivity. Qed.

Lemma steps_Cycle (p : Phase) (w w' : World) :
  Inv w -> Cycle p w -> steps w w' -> exists p', Cycle p' w'.
Proof.
  intros I C H. induction H as [|i w' H IH En]; [exists p; exact C|].
  destruct IH as [p1 C1].
  exact (Cycle_moves p1 _ _ C1 (exec_moves i w' (Inv_steps _ _ I H) En)).
Qed.

Lemma steps_Marked (w w' : World) :
  distinct_markers -> Inv w -> Marked w -> steps w w' -> Marked w'.
Proof.
  intros Hd I M H. induction H as [|i w' H IH En]; [exact M|].
  exact (Marked_moves _ _ Hd IH (exec_moves i w' (Inv_steps _ _ I H) En)).
Qed.

Lemma reachable_Cycle (w : World) : reachable w -> exists p, Cycle p w.
Proof.
  intros [a H].
  exact (steps_Cycle Closed _ _ (Inv_constructor a) (Cycle_constructor a) H).
Qed.

Lemma reachable_Marked (w : World) :
  distinct_markers -> reachable w -> Marked w.
Proof.
  intros Hd [a H].
  exact (steps_Marked _ _ Hd (Inv_constructor a) (Marked_constructor a) H).
Qed.

(** ** The last notification decides the phase *)

Lemma silent_next_phase (p : Phase) (e : Effect) :
  silent e = true -> next_phase p e = Some p.
Proof.
  destruct e as [| |c| | | | |]; try reflexivity.
  destruct c; try reflexivity; discriminate.
Qed.

Lemma loud_next_phase (p q : Phase) (e : Effect) :
  silent e = false -> next_phase p e = Some q -> announces e = Some q.
Proof.
  destruct e as [| |c| | | | |]; try discriminate.
  destruct c; try discriminate; simpl; intros _.
  - congruence.
  - destruct p; congruence.
  - congruence.
  - destruct p as [| | |b]; try discriminate.
    destruct (bool_decide (action = b)); congruence.
Qed.

Lemma phase_from_last (tr : list Effect) :
  forall p q,
    phase_from p tr = Some q ->
    (q = p /\ forallb silent tr = true) \/
    exists pre e mid,
      tr = pre ++ e :: mid /\ announces e = Some q /\
      forallb silent mid = true.
Proof.
  induction tr as [|e tr IH] using rev_ind; intros p q H.
  - left. simpl in H. split; [congruence|reflexivity].
  - rewrite phase_from_app in H.
    destruct (phase_from p tr) as [q1|] eqn:E1; [|discriminate].
    simpl in H. destruct (next_phase q1 e) as [q2|] eqn:E2; [|discriminate].
    injection H as ->.
    destruct (silent e) eqn:Se.
    + rewrite (silent_next_phase q1 e Se) in E2. injection E2 as ->.
      destruct (IH p q E1) as [[-> Hs]|(pre & e0 & mid & -> & Ha & Hs)].
      * left. rewrite forallb_app, Hs. simpl. rewrite Se. auto.
      * right. exists pre, e0, (mid ++ [e]).
        rewrite <- app_assoc, forallb_app, Hs. simpl. rewrite Se. auto.
    + right. exists tr, e, []. split; [reflexivity|].
      split; [exact (loud_next_phase q1 q e Se E2)|reflexivity].
Qed.

Lemma announces_Opening (e : Effect) :
  announces e = Some Opening -> e = Adapter notifyOpening.
Proof.
  destruct e as [| |c| | | | |]; try discriminate. destruct c; try discriminate.
  reflexivity.
Qed.

Lemma announces_Closing (e : Effect) (a : JSValue) :
  announces e = Some (Closing a) -> e = Adapter (notifyClosing a).
Proof.
  destruct e as [| |c| | | | |]; try discriminate. destruct c; try discriminate.
  simpl. congruence.
Qed.

(** X1. In the trace of every execution, a [notifyOpened] comes after a
    [notifyOpening] with no other life-cycle notification in between, and
    a [notifyClosed] with action [a] comes after a [notifyClosing] with
    the same [a] and no other life-cycle notification in between. *)
Theorem notifications_come_in_pairs (w : World) :
  reachable w ->
  (forall pre post,
     trace w = pre ++ Adapter notifyOpened :: post ->
     exists before between,
       pre = before ++ Adapter notifyOpening :: between /\
       forallb silent between = true) /\
  (forall a pre post,
     trace w = pre ++ Adapter (notifyClosed a) :: post ->
     exists before between,
       pre = before ++ Adapter (notifyClosing a) :: between /\
       forallb silent between = true).
Proof.
  intros R. destruct (reachable_Cycle w R) as [p C].
  pose proof (cy_phase _ _ _ C) as Hp. unfold phase in Hp.
  split.
  - intros pre post E. rewrite E, phase_from_app in Hp.
    destruct (phase_from Closed pre) as [q|] eqn:Eq; [|discriminate].
    simpl in Hp. destruct q; try discriminate.
    destruct (phase_from_last pre Closed Opening Eq)
      as [[H _]|(b & e & m & -> & Ha & Hs)]; [discriminate|].
    apply announces_Opening in Ha. subst e. eauto.
  - intros a pre post E. rewrite E, phase_from_app in Hp.
    destruct (phase_from Closed pre) as [q|] eqn:Eq; [|discriminate].
    simpl in Hp. destruct q as [| | |b]; try discriminate.
    destruct (bool_decide (a = b)) eqn:Eab; [|discriminate].
    apply bool_decide_eq_true_1 in Eab. subst b.
    destruct (phase_from_last pre Closed (Closing a) Eq)
      as [[H _]|(b & e & m & -> & Ha & Hs)]; [discriminate|].
    apply announces_Closing in Ha. subst e. eauto.
Qed.

(** X2. In every reachable world the flag agrees with the phase the
    notifications have reached: [isOpen_] is set exactly in the phases
    opening and opened. A pending timer is the open timer only while the
    flag is set and a close timer only while it is clear, and its callback
    leaves the fields as they are; so [notifyOpened] is delivered to an
    open dialog and [notifyClosed] to a closed one. *)
Theorem flag_follows_the_phase (w : World) :
  reachable w ->
  (exists p, phase (trace w) = Some p /\ isOpen_ (this w) = is_open_phase p) /\
  (forall t, In t (timers (host w)) ->
     (timer_callback t = OpenTimerEnd -> isOpen_ (this w) = true) /\
     (forall a, timer_callback t = CloseTimerEnd a -> isOpen_ (this w) = false) /\
     phase (trace w) = Some (callback_phase (timer_callback t)) /\
     this (snd (fire t w)) = this w).
Proof.
  intros R. destruct (reachable_Cycle w R) as [p C]. destruct C.
  split; [exists p; auto|].
  intros t Hin. pose proof (cy_timer0 t Hin) as Ht.
  rewrite cy_flag0, cy_phase0, <- Ht.
  split; [intros ->; reflexivity|]. split; [intros a ->; reflexivity|].
  split; [reflexivity|]. rewrite fire_world. reflexivity.
Qed.

(** X3. In every reachable world, what the adapter was last told about
    the scroll lock and about each of the four listeners agrees with the
    flag: the body's scroll-lock class was last added, and the click,
    keydown, resize and orientationchange listeners were last registered,
    exactly when [isOpen_] is set; otherwise they were last removed, or
    never touched. *)
Theorem held_exactly_while_open (w : World) :
  reachable w ->
  has_body_class (SCROLL_LOCK cssClasses) (trace w) = isOpen_ (this w) /\
  listens_on_surface "click" (dialogClickHandler_ (this w)) (trace w)
    = isOpen_ (this w) /\
  listens_on_document "keydown" (documentKeyDownHandler_ (this w)) (trace w)
    = isOpen_ (this w) /\
  listens_on_window "resize" (windowResizeHandler_ (this w)) (trace w)
    = isOpen_ (this w) /\
  listens_on_window "orientationchange" (windowResizeHandler_ (this w)) (trace w)
    = isOpen_ (this w).
Proof.
  intros R. destruct (reachable_Cycle w R) as [p C].
  destruct (reachable_listeners w R) as (Hc & Hr & Hk). rewrite Hc, Hr, Hk.
  destruct C. auto.
Qed.

(** X4. In every reachable world, focus is trapped only in an open
    dialog: if the last focus call was [trapFocus] then [isOpen_] is set
    (every [close] releases focus). And once the open timer's
    [notifyOpened] is the last notification, focus is trapped. *)
Theorem focus_trapped_only_while_open (w : World) :
  reachable w ->
  (focus_trapped (trace w) = true -> isOpen_ (this w) = true) /\
  (phase (trace w) = Some Opened -> focus_trapped (trace w) = true).
Proof.
  intros R. destruct (reachable_Cycle w R) as [p C]. destruct C.
  split; [assumption|]. rewrite cy_phase0. intros [= ->]. auto.
Qed.

(** X5. When the five class names differ: in every reachable world the
    open marker was last added exactly when [isOpen_] is set, and with no
    timer pending neither transient marker (opening, closing) is left
    on. *)
Theorem markers_follow_the_flag (w : World) :
  distinct_markers ->
  reachable w ->
  has_class (OPEN cssClasses) (trace w) = isOpen_ (this w) /\
  (timers (host w) = [] ->
   has_class (OPENING cssClasses) (trace w) = false /\
   has_class (CLOSING cssClasses) (trace w) = false).
Proof.
  intros Hd R. destruct (reachable_Marked w Hd R) as [Mo Mg Mc]. auto.
Qed.

(** ** Transitions that follow one another *)

Ltac decide_calls :=
  unfold is_call; cbn [count map app];
  repeat first
    [ rewrite bool_decide_eq_true_2 by reflexivity
    | rewrite bool_decide_eq_false_2 by congruence ];
  cbn [count].

Lemma open_then_elapse (w : World) (d : Z) :
  Inv w ->
  Z.max 0 OPEN_MS <= d ->
  let shown := snd (elapse d (snd (open w))) in
  this shown = set_fields true (nextTimerId (host w)) (this w) /\
  timers (host shown) = [] /\
  trace shown =
    trace (snd (open w)) ++
    [ TimerFired (nextTimerId (host w));
      Adapter (removeClass (OPENING cssClasses));
      Adapter (removeClass (CLOSING cssClasses));
      Adapter trapFocus;
      Adapter notifyOpened ].
Proof.
  intros I Hd. cbv zeta.
  set (t := mkTimer (nextTimerId (host w)) (now (host w) + Z.max 0 OPEN_MS)
              OpenTimerEnd).
  assert (E : timers (host (snd (open w))) = [t]).
  { rewrite open_world. simpl. rewrite (Inv_cancelled w I). reflexivity. }
  assert (N : now (host (snd (open w))) = now (host w)).
  { rewrite open_world. reflexivity. }
  assert (F : this (snd (open w)) = set_fields true (nextTimerId (host w)) (this w)).
  { rewrite open_world. reflexivity. }
  generalize dependent (snd (open w)). intros opened E N F.
  rewrite (elapse_due d _ t E) by (rewrite N; simpl; lia).
  rewrite fire_world. simpl. rewrite E, F.
  split; [reflexivity|]. split; [|reflexivity]. apply remove_timer_single.
Qed.

(** X6. [open] does not guard against an open dialog. Called twice in a
    row in a reachable world, it registers and notifies twice
    ([notifyOpening] is called twice), but the second call cancels the
    timer of the first: one timer is pending, the first one never fires,
    and once the open duration has passed [notifyOpened] has been
    delivered once. *)
Theorem open_twice_opens_once (w : World) :
  reachable w ->
  let twice := snd (open (snd (open w))) in
  timers (host twice) =
    [mkTimer (nextTimerId (host w) + 1) (now (host w) + Z.max 0 OPEN_MS)
       OpenTimerEnd] /\
  count (is_call notifyOpening) (trace twice) =
    S (S (count (is_call notifyOpening) (trace w))) /\
  (forall d, Z.max 0 OPEN_MS <= d ->
     count is_notifyOpened (trace (snd (elapse d twice))) =
     S (count is_notifyOpened (trace w))) /\
  (forall w3, steps twice w3 ->
     count (is_fired (nextTimerId (host w))) (trace w3) = 0%nat).
Proof.
  intros R. cbv zeta. pose proof (reachable_Inv w R) as I.
  pose proof (Inv_change _ _ I (open_change w I)) as I1.
  pose proof (Inv_change _ _ I1 (open_change _ I1)) as I2.
  assert (T1 : trace (snd (open w)) =
               trace w ++ Write_isOpen_ true :: map Adapter (open_calls (this w)) ++
               [ RequestAnimationFrame LayoutFrame;
                 ClearTimeout (animationTimer_ (this w));
                 SetTimeout OpenTimerEnd OPEN_MS (nextTimerId (host w));
                 Write_animationTimer_ (nextTimerId (host w)) ])
    by (rewrite open_world; reflexivity).
  assert (N1 : nextTimerId (host (snd (open w))) = nextTimerId (host w) + 1)
    by (rewrite open_world; reflexivity).
  assert (W1 : now (host (snd (open w))) = now (host w))
    by (rewrite open_world; reflexivity).
  generalize dependent (snd (open w)). intros v I1 I2 T1 N1 W1.
  assert (E2 : timers (host (snd (open v))) =
               [mkTimer (nextTimerId (host w) + 1)
                  (now (host w) + Z.max 0 OPEN_MS) OpenTimerEnd]).
  { rewrite open_world. simpl.
    rewrite (Inv_cancelled _ I1), N1, W1. reflexivity. }
  assert (T2 : trace (snd (open v)) =
               trace v ++
               Write_isOpen_ true :: map Adapter (open_calls (this v)) ++
               [ RequestAnimationFrame LayoutFrame;
                 ClearTimeout (animationTimer_ (this v));
                 SetTimeout OpenTimerEnd OPEN_MS (nextTimerId (host w) + 1);
                 Write_animationTimer_ (nextTimerId (host w) + 1) ]).
  { rewrite open_world. simpl. rewrite N1. reflexivity. }
  assert (N2 : nextTimerId (host (snd (open v))) = nextTimerId (host w) + 2).
  { rewrite open_world. simpl. lia. }
  split; [exact E2|]. split; [|split].
  - rewrite T2, T1, !count_app. unfold open_calls. decide_calls. lia.
  - intros d Hd.
    destruct (open_then_elapse v d I1 Hd) as (_ & _ & ->).
    rewrite T2, T1, !count_app. unfold open_calls. simpl. lia.
  - intros w3 H.
    assert (S2 : spent (nextTimerId (host w)) (snd (open v))).
    { split.
      - rewrite N2. lia.
      - rewrite E2. intros t [<-|[]]. simpl. lia. }
    destruct (spent_steps _ _ _ I2 H S2) as [_ ->].
    rewrite T2, T1, !count_app. unfold open_calls. simpl.
    rewrite (inv_fresh w I) by lia. reflexivity.
Qed.

Lemma notifications_app (tr new : list Effect) :
  notifications (tr ++ new) = notifications tr ++ notifications new.
Proof. unfold notifications. apply List.filter_app. Qed.

(** X7. One whole life cycle from a reachable world: [open], the open
    duration, [close] with an action, the close duration. The four
    notifications are delivered once each and in this order:
    [notifyOpening], [notifyOpened], [notifyClosing] and [notifyClosed],
    the last two with the action; two timers have fired, none is pending
    and the dialog is closed. *)
Theorem one_life_cycle (a : JSValue) (d1 d2 : Z) (w : World) :
  reachable w ->
  Z.max 0 OPEN_MS <= d1 ->
  Z.max 0 CLOSE_MS <= d2 ->
  let final :=
    snd (elapse d2 (snd (close a (snd (elapse d1 (snd (open w))))))) in
  notifications (trace final) =
    notifications (trace w) ++
    [ Adapter notifyOpening; Adapter notifyOpened;
      Adapter (notifyClosing a); Adapter (notifyClosed a) ] /\
  count is_any_fired (trace final) = S (S (count is_any_fired (trace w))) /\
  timers (host final) = [] /\
  isOpen_ (this final) = false.
Proof.
  intros R H1 H2. cbv zeta. pose proof (reachable_Inv w R) as I.
  destruct (open_then_elapse w d1 I H1) as (F1 & E1 & T1).
  assert (I1 : Inv (snd (elapse d1 (snd (open w))))).
  { apply (Inv_steps (snd (open w))).
    - exact (Inv_change _ _ I (open_change w I)).
    - apply steps_elapse. }
  assert (T0 : trace (snd (open w)) =
               trace w ++ Write_isOpen_ true :: map Adapter (open_calls (this w)) ++
               [ RequestAnimationFrame LayoutFrame;
                 ClearTimeout (animationTimer_ (this w));
                 SetTimeout OpenTimerEnd OPEN_MS (nextTimerId (host w));
                 Write_animationTimer_ (nextTimerId (host w)) ])
    by (rewrite open_world; reflexivity).
  generalize dependent (snd (elapse d1 (snd (open w)))). intros shown F1 E1 T1 I1.
  destruct (proj2 (close_then_elapse a shown d2 I1) H2) as [T3 E3].
  assert (T2 : trace (snd (close a shown)) =
               trace shown ++
               Write_isOpen_ false :: map Adapter (close_calls (this shown) a) ++
               [ ClearTimeout (animationTimer_ (this shown));
                 SetTimeout (CloseTimerEnd a) CLOSE_MS (nextTimerId (host shown));
                 Write_animationTimer_ (nextTimerId (host shown)) ])
    by (rewrite close_world; reflexivity).
  assert (F3 : isOpen_ (this (snd (elapse d2 (snd (close a shown))))) = false).
  { assert (Ec : timers (host (snd (close a shown))) =
                 [mkTimer (nextTimerId (host shown))
                    (now (host shown) + Z.max 0 CLOSE_MS) (CloseTimerEnd a)]).
    { rewrite close_world. simpl. rewrite E1. reflexivity. }
    rewrite (elapse_due d2 _ _ Ec), fire_world, close_world; [reflexivity|].
    rewrite close_world. simpl. lia. }
  split; [|split; [|split; [exact E3|exact F3]]].
  - rewrite T3, T2, T1, T0, !notifications_app. unfold open_calls, close_calls.
    simpl. rewrite <- !app_assoc. reflexivity.
  - rewrite T3, T2, T1, T0, !count_app. unfold open_calls, close_calls.
    simpl. lia.
Qed.

(** ** Measurements requested and measurements made *)

Lemma layout_calls_measure_once (a : A) :
  count (is_call areButtonsStacked) (map Adapter (layout_calls a)) = 1%nat /\
  count (is_call isContentScrollable) (map Adapter (layout_calls a)) = 1%nat.
Proof.
  unfold layout_calls.
  repeat match goal with |- context [truthy ?r] => destruct (truthy r) end;
    split; decide_calls; reflexivity.
Qed.

Lemma frames_measure (q : list FrameCallback) :
  forall w : World,
    count (is_call areButtonsStacked)
      (trace (fold_left
                (fun w' cb =>
                   snd (bind (emit (FrameRun cb))
                          (fun _ => run_frame_callback cb) w'))
                q w))
    = (count (is_call areButtonsStacked) (trace w) + length q)%nat.
Proof.
  induction q as [|cb q IH]; intros w; simpl; [lia|].
  assert (E : trace (snd (bind (emit (FrameRun cb))
                            (fun _ => run_frame_callback cb) w)) =
              (trace w ++ [FrameRun cb]) ++
              map Adapter (layout_calls (adapter_ w))).
  { unfold bind. rewrite run_frame_callback_world. reflexivity. }
  rewrite IH, E, !count_app.
  rewrite (proj1 (layout_calls_measure_once (adapter_ w))).
  cbn [count]. unfold is_call at 2.
  rewrite bool_decide_eq_false_2 by congruence. lia.
Qed.

Lemma animation_frame_measures (w : World) :
  count (is_call areButtonsStacked) (trace (snd (animation_frame w))) =
  (count (is_call areButtonsStacked) (trace w) + length (frames (host w)))%nat.
Proof.
  unfold animation_frame. simpl. rewrite frames_measure. reflexivity.
Qed.

(** X8. The window listener (resize and orientationchange) only calls
    [layout]: delivered [k] times in a row to a reachable world, it leaves
    the fields, the adapter and the timers alone and requests [k]
    animation frames; the requests are not merged, so the next frame
    measures the buttons once for every request that is queued. *)
Theorem resize_requests_are_not_merged (evt : Event) (k : nat) (w : World) :
  reachable w ->
  let resized :=
    Nat.iter k
      (fun v => snd (run_listener (windowResizeHandler_ (this v)) evt v)) w in
  this resized = this w /\
  adapter_ resized = adapter_ w /\
  timers (host resized) = timers (host w) /\
  frames (host resized) = frames (host w) ++ repeat LayoutFrame k /\
  trace resized = trace w ++ repeat (RequestAnimationFrame LayoutFrame) k /\
  count (is_call areButtonsStacked) (trace (snd (animation_frame resized))) =
    (count (is_call areButtonsStacked) (trace w) +
     length (frames (host w)) + k)%nat.
Proof.
  intros R. cbv zeta.
  destruct (reachable_listeners w R) as (_ & Hr & _).
  assert (H : forall n,
    let v := Nat.iter n
      (fun v => snd (run_listener (windowResizeHandler_ (this v)) evt v)) w in
    this v = this w /\ adapter_ v = adapter_ w /\
    timers (host v) = timers (host w) /\
    frames (host v) = frames (host w) ++ repeat LayoutFrame n /\
    trace v = trace w ++ repeat (RequestAnimationFrame LayoutFrame) n).
  { induction n as [|n IH]; cbv zeta.
    - simpl. rewrite !app_nil_r. auto.
    - cbv zeta in IH. simpl Nat.iter.
      destruct IH as (Hf & Ha & Ht & Hq & Htr).
      generalize dependent (Nat.iter n
        (fun v => snd (run_listener (windowResizeHandler_ (this v)) evt v)) w).
      intros v Hf Ha Ht Hq Htr. rewrite Hf, Hr.
      change (snd (run_listener (windowResizeHandler_ new_foundation) evt v))
        with (snd (layout v)).
      simpl. rewrite Hq, Htr, <- !app_assoc.
      change [LayoutFrame] with (repeat LayoutFrame 1).
      change [RequestAnimationFrame LayoutFrame]
        with (repeat (RequestAnimationFrame LayoutFrame) 1).
      rewrite <- !repeat_app, Nat.add_1_r. auto. }
  destruct (H k) as (Hf & Ha & Ht & Hq & Htr).
  repeat (split; [assumption|]).
  rewrite animation_frame_measures, Hq, Htr, count_app, length_app, repeat_length.
  assert (C : count (is_call areButtonsStacked)
                (repeat (RequestAnimationFrame LayoutFrame) k) = 0%nat).
  { clear. induction k as [|k IH]; cbn [repeat count]; [reflexivity|].
    unfold is_call at 1. rewrite bool_decide_eq_false_2 by congruence.
    exact IH. }
  rewrite C. lia.
Qed.

(** X9. [destroy] cancels the timer but not the animation frame that
    [layout] requested: the frame queue is as before, and the next frame
    still measures the buttons once for every queued request, after the
    foundation has been destroyed. *)
Theorem destroy_keeps_requested_frames (w : World) :
  frames (host (snd (destroy w))) = frames (host w) /\
  count (is_call areButtonsStacked)
    (trace (snd (animation_frame (snd (destroy w)))))
  = (count (is_call areButtonsStacked) (trace w) +
     length (frames (host w)))%nat /\
  frames (host (snd (destroy (snd (open w))))) = frames (host w) ++ [LayoutFrame].
Proof.
  assert (F : forall v : World, frames (host (snd (destroy v))) = frames (host v)).
  { intros v. rewrite destroy_world. cbv zeta.
    destruct (isOpen_ (this v)); [rewrite close_world|]; reflexivity. }
  split; [apply F|]. split.
  - rewrite animation_frame_measures, F. f_equal.
    rewrite destroy_world. cbv zeta.
    destruct (isOpen_ (this w)).
    + rewrite close_world. simpl. rewrite !count_app. unfold close_calls.
      decide_calls. lia.
    + simpl. rewrite count_app. decide_calls. lia.
  - rewrite F, open_world. reflexivity.
Qed.

(** X10. When the five class names differ and [close] follows [open]
    before the open timer has fired, both transient markers are on at
    once and the open marker is off: [close] adds the closing marker
    without removing the opening one. The close timer's callback removes
    both. *)
Theorem superseding_close_holds_both_markers (a : JSValue) (w : World) :
  distinct_markers ->
  reachable w ->
  let closing := snd (close a (snd (open w))) in
  has_class (OPENING cssClasses) (trace closing) = true /\
  has_class (CLOSING cssClasses) (trace closing) = true /\
  has_class (OPEN cssClasses) (trace closing) = false /\
  (forall d, Z.max 0 CLOSE_MS <= d ->
     has_class (OPENING cssClasses) (trace (snd (elapse d closing))) = false /\
     has_class (CLOSING cssClasses) (trace (snd (elapse d closing))) = false).
Proof.
  intros Hd R. cbv zeta. pose proof (reachable_Inv w R) as I.
  destruct (distinct_markers_ne Hd)
    as (N1 & N2 & N3 & N4 & N5 & N6 & N7 & N8 & N9).
  pose proof (Inv_change _ _ I (open_change w I)) as I1.
  assert (T1 : trace (snd (open w)) =
               trace w ++ Write_isOpen_ true :: map Adapter (open_calls (this w)) ++
               [ RequestAnimationFrame LayoutFrame;
                 ClearTimeout (animationTimer_ (this w));
                 SetTimeout OpenTimerEnd OPEN_MS (nextTimerId (host w));
                 Write_animationTimer_ (nextTimerId (host w)) ])
    by (rewrite open_world; reflexivity).
  generalize dependent (snd (open w)). intros v I1 T1.
  assert (T2 : trace (snd (close a v)) =
               trace v ++
               Write_isOpen_ false :: map Adapter (close_calls (this v) a) ++
               [ ClearTimeout (animationTimer_ (this v));
                 SetTimeout (CloseTimerEnd a) CLOSE_MS (nextTimerId (host v));
                 Write_animationTimer_ (nextTimerId (host v)) ])
    by (rewrite close_world; reflexivity).
  pose proof (fun d Hle => proj1 (proj2 (close_then_elapse a v d I1) Hle)) as T3.
  generalize dependent (snd (close a v)). intros c T2 T3.
  unfold_readers.
  split; [|split; [|split]].
  - rewrite T2, T1, !toggled_from_app. unfold open_calls, close_calls.
    walk. reflexivity.
  - rewrite T2, T1, !toggled_from_app. unfold open_calls, close_calls.
    walk. reflexivity.
  - rewrite T2, T1, !toggled_from_app. unfold open_calls, close_calls.
    walk. reflexivity.
  - intros d Hle. rewrite (T3 d Hle), !toggled_from_app.
    split; walk; reflexivity.
Qed.

Lemma close_trace (a : JSValue) (w : World) :
  trace (snd (close a w)) =
  trace w ++
  Write_isOpen_ false :: map Adapter (close_calls (this w) a) ++
  [ ClearTimeout (animationTimer_ (this w));
    SetTimeout (CloseTimerEnd a) CLOSE_MS (nextTimerId (host w));
    Write_animationTimer_ (nextTimerId (host w)) ].
Proof. rewrite close_world. reflexivity. Qed.

(** X13. [close] does not guard against a closing dialog. When it is
    called again, with another action, before the close timer has fired,
    [notifyClosing] has been called with each action in turn, but the
    second call cancels the timer of the first: once the close duration
    has passed, [notifyClosed] has been delivered once, with the second
    action; the first action is never reported as closed. *)
Theorem close_twice_reports_the_last_action (a b : JSValue) (d : Z) (w : World) :
  reachable w ->
  Z.max 0 CLOSE_MS <= d ->
  let twice := snd (close b (snd (close a w))) in
  notifications (trace (snd (elapse d twice))) =
    notifications (trace w) ++
    [ Adapter (notifyClosing a); Adapter (notifyClosing b);
      Adapter (notifyClosed b) ] /\
  timers (host (snd (elapse d twice))) = [] /\
  (forall w3, steps twice w3 ->
     count (is_fired (nextTimerId (host w))) (trace w3) = 0%nat).
Proof.
  intros R Hd. cbv zeta. pose proof (reachable_Inv w R) as I.
  pose proof (Inv_change _ _ I (close_change a w I)) as I1.
  pose proof (close_trace a w) as T1.
  assert (N1 : nextTimerId (host (snd (close a w))) = nextTimerId (host w) + 1)
    by (rewrite close_world; reflexivity).
  generalize dependent (snd (close a w)). intros v I1 T1 N1.
  pose proof (Inv_change _ _ I1 (close_change b v I1)) as I2.
  pose proof (close_trace b v) as T2.
  destruct (proj2 (close_then_elapse b v d I1) Hd) as [T3 E3].
  assert (E2 : timers (host (snd (close b v))) =
               [mkTimer (nextTimerId (host v)) (now (host v) + Z.max 0 CLOSE_MS)
                  (CloseTimerEnd b)]).
  { rewrite close_world. simpl. rewrite (Inv_cancelled v I1). reflexivity. }
  assert (N2 : nextTimerId (host (snd (close b v))) = nextTimerId (host v) + 1)
    by (rewrite close_world; reflexivity).
  generalize dependent (snd (close b v)). intros c I2 T2 T3 E3 E2 N2.
  split; [|split; [exact E3|]].
  - rewrite T3, T2, T1, !notifications_app. unfold close_calls. simpl.
    rewrite <- !app_assoc. reflexivity.
  - intros w3 H.
    assert (S2 : spent (nextTimerId (host w)) c).
    { split; [lia|]. rewrite E2. intros t [<-|[]]. simpl. lia. }
    destruct (spent_steps _ _ _ I2 H S2) as [_ ->].
    rewrite T2, T1, !count_app. unfold close_calls. simpl.
    rewrite (inv_fresh w I) by lia. reflexivity.
Qed.

(** X14. Destroying an open dialog announces the closing but never the
    closed: [destroy] calls [notifyClosing] with the destroy action and
    then cancels the timer that would have called [notifyClosed]. The
    notifications end with that [notifyClosing], the phase stays closing,
    and no passing of time adds a notification. *)
Theorem destroy_never_reports_closed (w : World) :
  reachable w ->
  isOpen_ (this w) = true ->
  let destroyed := snd (destroy w) in
  notifications (trace destroyed) =
    notifications (trace w) ++
    [ Adapter (notifyClosing (JStr (DESTROY_ACTION strings))) ] /\
  phase (trace destroyed) = Some (Closing (JStr (DESTROY_ACTION strings))) /\
  (forall d,
     notifications (trace (snd (elapse d destroyed))) =
     notifications (trace destroyed)).
Proof.
  intros R O. cbv zeta. pose proof (reachable_Inv w R) as I.
  destruct (reachable_Cycle w R) as [p C].
  pose proof (cy_phase _ _ _ C) as Hp. unfold phase in *.
  assert (T : trace (snd (destroy w)) =
              trace (snd (close (JStr (DESTROY_ACTION strings)) w)) ++
              [ Adapter (removeClass (OPENING cssClasses));
                Adapter (removeClass (CLOSING cssClasses));
                ClearTimeout (nextTimerId (host w)) ]).
  { rewrite destroy_world. cbv zeta. rewrite O, close_world. reflexivity. }
  assert (E : timers (host (snd (destroy w))) = []).
  { rewrite destroy_world. cbv zeta. rewrite O.
    exact (Inv_cancelled _ (Inv_change _ _ I (close_change _ w I))). }
  split; [|split].
  - rewrite T, close_trace, !notifications_app. unfold close_calls. simpl.
    rewrite app_nil_r. reflexivity.
  - rewrite T, close_trace, !phase_from_app, Hp. reflexivity.
  - intros d. rewrite (elapse_none d _ E). reflexivity.
Qed.

End Properties.

(** * The foundation on the test double *)

Section OnTheTestDouble.

Import TestDouble.

Variable classify : Event -> JSValue.
Variable css : CssClasses.

Lemma frame_callback_classList (w : World Page) :
  classList
    (adapter_ (snd (run_frame_callback (adapter true false classify) css
                      LayoutFrame w))) =
  ((classList (adapter_ w) ∖ {[STACKED css]}) ∪ {[STACKED css]})
    ∖ {[SCROLLABLE css]}.
Proof.
  rewrite run_frame_callback_world. reflexivity.
Qed.

Lemma frame_after_layout_classList (w : World Page) :
  exists before : gset string,
    classList
      (adapter_ (snd (animation_frame (adapter true false classify) css
                        (snd (layout w))))) =
    ((before ∖ {[STACKED css]}) ∪ {[STACKED css]}) ∖ {[SCROLLABLE css]}.
Proof.
  unfold animation_frame.
  change (frames (host (snd (layout w)))) with (frames (host w) ++ [LayoutFrame]).
  cbn [snd]. rewrite fold_left_app. cbn [fold_left].
  match goal with |- context [bind _ _ ?v] => generalize v end.
  intros v. unfold bind. rewrite frame_callback_classList.
  eexists. reflexivity.
Qed.

End OnTheTestDouble.

(** C9. A call of [layout] does no work itself: it only requests an
    animation frame. The callback, run by the next frame, removes the
    stacked marker, asks [areButtonsStacked] and adds the marker back
    exactly when the answer is truthy; then it does the same with the
    scrollable marker and [isContentScrollable]. On the test double whose
    buttons are stacked and whose content does not scroll, the frame after
    [layout] leaves the stacked marker on the dialog and the scrollable
    marker off. *)
Theorem layout_measures_on_next_frame
    {A : Type} (adapter : AdapterCall -> A -> JSValue * A)
    (css : CssClasses) (classify : Event -> JSValue)
    (w : World A) (p : World TestDouble.Page) :
  STACKED css <> SCROLLABLE css ->
  snd (layout w) =
    mkWorld (this w) (adapter_ w)
      (mkHost (now (host w)) (nextTimerId (host w)) (timers (host w))
         (frames (host w) ++ [LayoutFrame]))
      (trace w ++ [RequestAnimationFrame LayoutFrame]) /\
  (frames (host w) = [] ->
   snd (animation_frame adapter css (snd (layout w))) =
   snd (run_frame_callback adapter css LayoutFrame
          (mkWorld (this w) (adapter_ w) (host w)
             (trace w ++
              [RequestAnimationFrame LayoutFrame; FrameRun LayoutFrame])))) /\
  (forall v : World A,
     let a1 := snd (adapter (removeClass (STACKED css)) (adapter_ v)) in
     let r1 := fst (adapter areButtonsStacked a1) in
     let a2 := snd (adapter areButtonsStacked a1) in
     let a3 := if truthy r1 then snd (adapter (addClass (STACKED css)) a2)
               else a2 in
     let a4 := snd (adapter (removeClass (SCROLLABLE css)) a3) in
     let r2 := fst (adapter isContentScrollable a4) in
     let a5 := snd (adapter isContentScrollable a4) in
     let a6 := if truthy r2 then snd (adapter (addClass (SCROLLABLE css)) a5)
               else a5 in
     trace (snd (run_frame_callback adapter css LayoutFrame v)) =
       trace v ++
       [Adapter (removeClass (STACKED css)); Adapter areButtonsStacked] ++
       (if truthy r1 then [Adapter (addClass (STACKED css))] else []) ++
       [Adapter (removeClass (SCROLLABLE css)); Adapter isContentScrollable] ++
       (if truthy r2 then [Adapter (addClass (SCROLLABLE css))] else []) /\
     adapter_ (snd (run_frame_callback adapter css LayoutFrame v)) = a6) /\
  (let after :=
     snd (animation_frame (TestDouble.adapter true false classify) css
            (snd (layout p))) in
   STACKED css ∈ TestDouble.classList (adapter_ after) /\
   SCROLLABLE css ∉ TestDouble.classList (adapter_ after)).
Proof.
  intros Hne. split; [reflexivity|]. split; [|split].
  - intros E. destruct w as [f a [n nx ts fs] tr]. simpl in E. subst fs.
    unfold animation_frame, layout, requestAnimationFrame, bind, emit. simpl.
    rewrite <- app_assoc. reflexivity.
  - intros v. cbv zeta. rewrite run_frame_callback_world.
    unfold layout_calls, run_adapter. simpl.
    destruct (truthy (fst (adapter areButtonsStacked
               (snd (adapter (removeClass (STACKED css)) (adapter_ v))))));
      simpl;
      match goal with |- context [truthy ?r] => destruct (truthy r) end;
      split; reflexivity.
  - cbv zeta. destruct (frame_after_layout_classList classify css p) as [X ->].
    split.
    + apply elem_of_difference. split.
      * apply elem_of_union_r, elem_of_singleton. reflexivity.
      * rewrite elem_of_singleton. exact Hne.
    + rewrite elem_of_difference, elem_of_singleton. intros [_ H]. apply H.
      reflexivity.
Qed.

(** ** The claims at concrete inputs *)

Section Witnesses.

Import TestDouble.

Local Abbreviation reaches ad := (reachable ad cssClasses numbers strings).
Local Abbreviation steps := (steps accepting cssClasses numbers strings).
Local Abbreviation open_on ad := (open ad cssClasses numbers).
Local Abbreviation open := (open accepting cssClasses numbers).
Local Abbreviation close_on ad := (close ad cssClasses numbers).
Local Abbreviation close := (close accepting cssClasses numbers).
Local Abbreviation destroy := (destroy accepting cssClasses numbers strings).
Local Abbreviation elapse := (elapse accepting cssClasses).
Local Abbreviation run_listener_on ad :=
  (run_listener ad cssClasses numbers strings).

Lemma reachable_opened : reaches accepting opened.
Proof.
  exists emptyPage.
  exact (steps_step accepting cssClasses numbers strings _ CallOpen _
           (steps_refl _ _ _ _ _) I).
Qed.

Lemma reachable_opened_unlabelled :
  reaches unlabelled opened_unlabelled.
Proof.
  exists emptyPage.
  exact (steps_step unlabelled cssClasses numbers strings _ CallOpen _
           (steps_refl _ _ _ _ _) I).
Qed.

Lemma close_effects_in_order_witness :
  reaches accepting opened /\
  timers (host (snd (close (JStr "accept") opened))) =
    [mkTimer 2 75 (CloseTimerEnd (JStr "accept"))].
Proof.
  split; [exact reachable_opened|].
  exact (proj1 (proj2 (proj2 (proj2 (proj2 (proj2 (proj2
           (close_effects_in_order accepting cssClasses numbers strings
              (JStr "accept") opened reachable_opened)))))))).
Defined.


Lemma close_supersedes_open_witness :
  reaches accepting fresh /\
  steps (snd (open fresh)) (snd (elapse 100 opened)) /\
  count (is_fired 1) (trace (snd (elapse 100 opened))) = 0%nat /\
  trace (snd (elapse 75 (snd (close (JStr "accept") (snd (elapse 100 opened)))))) =
    trace (snd (close (JStr "accept") (snd (elapse 100 opened)))) ++
    [ TimerFired 2;
      Adapter (removeClass "mdc-dialog--opening");
      Adapter (removeClass "mdc-dialog--closing");
      Adapter (notifyClosed (JStr "accept")) ].
Proof.
  assert (R : reaches accepting fresh) by (exists emptyPage; apply steps_refl).
  assert (S : steps (snd (open fresh)) (snd (elapse 100 opened)))
    by apply steps_elapse.
  assert (C : count (is_fired 1) (trace (snd (elapse 100 opened))) = 0%nat)
    by reflexivity.
  split; [exact R|]. split; [exact S|]. split; [exact C|].
  refine (proj1 (proj1 (proj2 (proj2 (proj2
            (close_supersedes_open accepting cssClasses numbers strings
               (JStr "accept") fresh (snd (elapse 100 opened)) R S C)))) 75 _)).
  vm_compute. discriminate.
Defined.

Lemma destroy_cleans_up_witness :
  reaches accepting opened /\ timers (host (snd (destroy opened))) = [].
Proof.
  split; [exact reachable_opened|].
  exact (proj1 (proj2 (proj2 (proj2
           (destroy_cleans_up accepting cssClasses numbers strings opened
              reachable_opened))))).
Defined.

Lemma escape_key_closes_witness :
  reaches accepting opened /\
  run_listener_on accepting (documentKeyDownHandler_ (this opened)) escapeKey opened =
  close (JStr "close") opened.
Proof.
  split; [exact reachable_opened|].
  exact (proj1 (proj2
           (escape_key_closes accepting cssClasses numbers strings escapeKey
              opened reachable_opened)) (or_introl eq_refl)).
Defined.

Lemma click_closes_on_truthy_action_witness :
  reaches accepting opened /\
  In (Adapter (notifyClosing (JStr "accept")))
     (trace (snd (run_listener_on accepting (dialogClickHandler_ (this opened))
                   click opened))).
Proof.
  split; [exact reachable_opened|].
  exact (proj1 (proj2 (proj1 (proj2 (proj2 (proj2 (proj2
           (click_closes_on_truthy_action accepting cssClasses numbers strings
              click opened reachable_opened))))) eq_refl))).
Defined.

Lemma layout_measures_on_next_frame_witness :
  STACKED cssClasses <> SCROLLABLE cssClasses /\
  "mdc-dialog--stacked" ∈
    classList
      (adapter_ (snd (animation_frame accepting cssClasses (snd (layout opened))))) /\
  "mdc-dialog--scrollable" ∉
    classList
      (adapter_ (snd (animation_frame accepting cssClasses (snd (layout opened))))).
Proof.
  assert (Hne : STACKED cssClasses <> SCROLLABLE cssClasses) by discriminate.
  split; [exact Hne|].
  exact (proj2 (proj2 (proj2
           (layout_measures_on_next_frame accepting cssClasses
              (fun _ => JStr "accept") opened opened Hne)))).
Defined.

Lemma falsy_action_is_no_action_witness :
  truthy (fst (unlabelled (getActionFromEvent click)
                 (adapter_ opened_unlabelled))) = false /\
  this (snd (handleDialogClick_ unlabelled cssClasses numbers click
               opened_unlabelled)) = this opened_unlabelled.
Proof.
  split; [reflexivity|].
  exact (proj1 (falsy_action_is_no_action unlabelled cssClasses numbers click
                  opened_unlabelled eq_refl)).
Defined.

(** C8 as stated fails: the adapter reports a token, the empty string,
    for a click on the open dialog, and the foundation does not call
    [close]: the dialog stays open, the only effect is the question to the
    adapter, and [notifyClosing] is not called. *)
Lemma click_with_empty_action_does_not_close :
  let clicked :=
    snd (run_listener_on unlabelled
           (dialogClickHandler_ (this opened_unlabelled)) click
           opened_unlabelled) in
  fst (unlabelled (getActionFromEvent click) (adapter_ opened_unlabelled))
    = JStr "" /\
  isOpen_ (this opened_unlabelled) = true /\
  isOpen_ (this clicked) = true /\
  trace clicked =
    trace opened_unlabelled ++ [Adapter (getActionFromEvent click)] /\
  count (fun e => bool_decide (e = Adapter (notifyClosing (JStr ""))))
    (trace clicked) = 0%nat /\
  timers (host clicked) = timers (host opened_unlabelled) /\
  clicked <>
    snd (close_on unlabelled (JStr "")
           (snd (call unlabelled (getActionFromEvent click) opened_unlabelled))).
Proof.
  cbv zeta. repeat (split; [vm_compute; reflexivity|]).
  intros H. apply (f_equal (fun w => isOpen_ (this w))) in H.
  vm_compute in H. discriminate H.
Qed.

(** ** One life cycle on the test double *)

Example open_attaches_four_listeners :
  listeners (adapter_ opened) =
  [ (OnSurface, "click", dialogClickHandler_ new_foundation);
    (OnDocument, "keydown", documentKeyDownHandler_ new_foundation);
    (OnWindow, "resize", windowResizeHandler_ new_foundation);
    (OnWindow, "orientationchange", windowResizeHandler_ new_foundation) ].
Proof. vm_compute. reflexivity. Qed.

Example shown_dialog :
  isOpen_ (this shown) = true /\
  classList (adapter_ shown) = {[ "mdc-dialog--open" ]} /\
  bodyClassList (adapter_ shown) = {[ "mdc-dialog-scroll-lock" ]} /\
  focusTrapped (adapter_ shown) = true /\
  timers (host shown) = [] /\
  count is_notifyOpened (trace shown) = 1%nat.
Proof. vm_compute. repeat split; reflexivity. Qed.

Example dismissed_dialog :
  isOpen_ (this dismissed) = false /\
  classList (adapter_ dismissed) = ∅ /\
  bodyClassList (adapter_ dismissed) = ∅ /\
  focusTrapped (adapter_ dismissed) = false /\
  listeners (adapter_ dismissed) = [] /\
  timers (host dismissed) = [] /\
  In (Adapter (notifyClosing (JStr "accept"))) (trace dismissed) /\
  last (trace dismissed) = Some (Adapter (notifyClosed (JStr "accept"))).
Proof. vm_compute. repeat split; try reflexivity. tauto. Qed.

Example enter_key_is_ignored :
  run_listener_on accepting (documentKeyDownHandler_ (this shown)) enterKey shown
  = (tt, shown).
Proof. reflexivity. Qed.

(** The default adapter classifies no click: its [getActionFromEvent]
    returns undefined, and the dialog stays open. *)
Example default_adapter_click :
  let w := snd (open_on defaultAdapter (constructor tt)) in
  snd (handleDialogClick_ defaultAdapter cssClasses numbers click w) =
  snd (call defaultAdapter (getActionFromEvent click) w) /\
  isOpen_ (this (snd (handleDialogClick_ defaultAdapter cssClasses numbers click w)))
  = true.
Proof. split; reflexivity. Qed.

End Witnesses.

(** * Beyond the claims: particular adapters *)

(** X11. With the default adapter, whose methods all return undefined, a
    click never closes the dialog: the click handler asks for the action
    and stops, in every world and for every event. Nor does the
    animation-frame callback of [layout] ever add a marker: it removes
    the two markers, measures, and adds nothing back. *)
Theorem default_adapter_is_inert
    {S : Type} (css : CssClasses) (nums : Numbers) (evt : Event) (w : World S) :
  snd (handleDialogClick_ defaultAdapter css nums evt w) =
    mkWorld (this w) (adapter_ w) (host w)
      (trace w ++ [Adapter (getActionFromEvent evt)]) /\
  snd (run_frame_callback defaultAdapter css LayoutFrame w) =
    mkWorld (this w) (adapter_ w) (host w)
      (trace w ++
       [ Adapter (removeClass (STACKED css)); Adapter areButtonsStacked;
         Adapter (removeClass (SCROLLABLE css)); Adapter isContentScrollable ]).
Proof.
  split.
  - reflexivity.
  - rewrite run_frame_callback_world. reflexivity.
Qed.

Section LayoutOnTheTestDouble.

Import TestDouble.

Local Set Warnings "-clear-no-such-hyp".

(** X12. On the test double, whatever its two measurements answer, the
    animation-frame callback of [layout] leaves the stacked marker on
    exactly when the buttons are stacked and the scrollable marker on
    exactly when the content scrolls (the two class names differing); it
    touches no other class of the dialog, nor the body's classes, the
    listeners, focus, the foundation's fields or the host; and running it
    again changes nothing. *)
Theorem layout_sets_exactly_its_markers
    (stacked scrollable : bool) (classify : Event -> JSValue)
    (css : CssClasses) (p : World Page) :
  STACKED css <> SCROLLABLE css ->
  let run := run_frame_callback (adapter stacked scrollable classify) css
               LayoutFrame in
  let after := snd (run p) in
  (STACKED css ∈ classList (adapter_ after) <-> stacked = true) /\
  (SCROLLABLE css ∈ classList (adapter_ after) <-> scrollable = true) /\
  (forall c, c <> STACKED css -> c <> SCROLLABLE css ->
     (c ∈ classList (adapter_ after) <-> c ∈ classList (adapter_ p))) /\
  bodyClassList (adapter_ after) = bodyClassList (adapter_ p) /\
  listeners (adapter_ after) = listeners (adapter_ p) /\
  focusTrapped (adapter_ after) = focusTrapped (adapter_ p) /\
  this after = this p /\
  host after = host p /\
  adapter_ (snd (run after)) = adapter_ after.
Proof.
  intros Hne. cbv zeta. rewrite !run_frame_callback_world.
  destruct p as [f [cl bcl ls ft] h tr].
  destruct stacked, scrollable; simpl; unfold with_classList; simpl;
    repeat split; try discriminate; try (intros; f_equal);
    try (set_unfold; naive_solver).
Qed.

End LayoutOnTheTestDouble.

(** ** The further properties at concrete inputs *)

Section MoreWitnesses.

Import TestDouble.

Local Abbreviation reaches ad := (reachable ad cssClasses numbers strings).
Local Abbreviation open_on ad := (open ad cssClasses numbers).
Local Abbreviation close_on ad := (close ad cssClasses numbers).
Local Abbreviation elapse_on ad := (elapse ad cssClasses).
Local Abbreviation listener_on ad :=
  (run_listener ad cssClasses numbers strings).

Lemma reachable_fresh : reaches accepting fresh.
Proof. exists emptyPage. apply steps_refl. Qed.

Lemma reachable_shown : reaches accepting shown.
Proof.
  destruct reachable_opened as [a H]. exists a.
  apply (steps_trans _ _ _ _ _ opened); [exact H|apply steps_elapse].
Qed.

Lemma reachable_dismissed : reaches accepting dismissed.
Proof.
  destruct reachable_shown as [a H]. exists a.
  apply (steps_trans _ _ _ _ _
           (snd (listener_on accepting (dialogClickHandler_ (this shown))
                   click shown))); [|apply steps_elapse].
  apply (steps_trans _ _ _ _ _ shown); [exact H|].
  apply (steps_input _ _ _ _
           (Dispatch (dialogClickHandler_ (this shown)) click) shown).
  left. reflexivity.
Qed.

Lemma distinct_sample_markers : distinct_markers cssClasses.
Proof.
  unfold distinct_markers. simpl.
  repeat (apply NoDup_cons; split; [rewrite ?not_elem_of_cons;
    repeat split; try discriminate; apply not_elem_of_nil|]).
  apply NoDup_nil_2.
Qed.

Lemma notifications_come_in_pairs_witness :
  reaches accepting dismissed /\
  (forall a pre post,
     trace dismissed = pre ++ Adapter (notifyClosed a) :: post ->
     exists before between,
       pre = before ++ Adapter (notifyClosing a) :: between /\
       forallb silent between = true).
Proof.
  split; [exact reachable_dismissed|].
  exact (proj2 (notifications_come_in_pairs accepting cssClasses numbers
                  strings dismissed reachable_dismissed)).
Defined.

Lemma flag_follows_the_phase_witness :
  reaches accepting opened /\
  exists p, phase (trace opened) = Some p /\
            isOpen_ (this opened) = is_open_phase p.
Proof.
  split; [exact reachable_opened|].
  exact (proj1 (flag_follows_the_phase accepting cssClasses numbers strings
                  opened reachable_opened)).
Defined.

Lemma held_exactly_while_open_witness :
  reaches accepting opened /\
  has_body_class "mdc-dialog-scroll-lock" (trace opened) = isOpen_ (this opened).
Proof.
  split; [exact reachable_opened|].
  exact (proj1 (held_exactly_while_open accepting cssClasses numbers strings
                  opened reachable_opened)).
Defined.

Lemma focus_trapped_only_while_open_witness :
  reaches accepting shown /\
  (focus_trapped (trace shown) = true -> isOpen_ (this shown) = true).
Proof.
  split; [exact reachable_shown|].
  exact (proj1 (focus_trapped_only_while_open accepting cssClasses numbers
                  strings shown reachable_shown)).
Defined.

Lemma markers_follow_the_flag_witness :
  distinct_markers cssClasses /\
  reaches accepting opened /\
  has_class "mdc-dialog--open" (trace opened) = isOpen_ (this opened).
Proof.
  split; [exact distinct_sample_markers|]. split; [exact reachable_opened|].
  exact (proj1 (markers_follow_the_flag accepting cssClasses numbers strings
                  opened distinct_sample_markers reachable_opened)).
Defined.

Lemma open_twice_opens_once_witness :
  reaches accepting fresh /\
  timers (host (snd (open_on accepting (snd (open_on accepting fresh))))) =
    [mkTimer 2 150 OpenTimerEnd].
Proof.
  split; [exact reachable_fresh|].
  exact (proj1 (open_twice_opens_once accepting cssClasses numbers strings
                  fresh reachable_fresh)).
Defined.

Lemma one_life_cycle_witness :
  reaches accepting fresh /\
  Z.max 0 (DIALOG_ANIMATION_OPEN_TIME_MS numbers) <= 150 /\
  Z.max 0 (DIALOG_ANIMATION_CLOSE_TIME_MS numbers) <= 75 /\
  notifications
    (trace (snd (elapse_on accepting 75
                   (snd (close_on accepting (JStr "accept")
                           (snd (elapse_on accepting 150
                                   (snd (open_on accepting fresh))))))))) =
  [ Adapter notifyOpening; Adapter notifyOpened;
    Adapter (notifyClosing (JStr "accept"));
    Adapter (notifyClosed (JStr "accept")) ].
Proof.
  assert (H1 : Z.max 0 (DIALOG_ANIMATION_OPEN_TIME_MS numbers) <= 150)
    by (vm_compute; discriminate).
  assert (H2 : Z.max 0 (DIALOG_ANIMATION_CLOSE_TIME_MS numbers) <= 75)
    by (vm_compute; discriminate).
  split; [exact reachable_fresh|]. split; [exact H1|]. split; [exact H2|].
  exact (proj1 (one_life_cycle accepting cssClasses numbers strings
                  (JStr "accept") 150 75 fresh reachable_fresh H1 H2)).
Defined.

Lemma resize_requests_are_not_merged_witness :
  reaches accepting opened /\
  frames
    (host (Nat.iter 3
             (fun v => snd (listener_on accepting (windowResizeHandler_ (this v))
                              click v))
             opened)) =
  [LayoutFrame; LayoutFrame; LayoutFrame; LayoutFrame].
Proof.
  split; [exact reachable_opened|].
  exact (proj1 (proj2 (proj2 (proj2
           (resize_requests_are_not_merged accepting cssClasses numbers strings
              click 3 opened reachable_opened))))).
Defined.

Lemma superseding_close_holds_both_markers_witness :
  distinct_markers cssClasses /\
  reaches accepting fresh /\
  has_class "mdc-dialog--opening"
    (trace (snd (close_on accepting JUndefined (snd (open_on accepting fresh)))))
  = true.
Proof.
  split; [exact distinct_sample_markers|]. split; [exact reachable_fresh|].
  exact (proj1 (superseding_close_holds_both_markers accepting cssClasses
                  numbers strings JUndefined fresh distinct_sample_markers
                  reachable_fresh)).
Defined.

Lemma layout_sets_exactly_its_markers_witness :
  STACKED cssClasses <> SCROLLABLE cssClasses /\
  ("mdc-dialog--scrollable" ∈
     classList
       (adapter_ (snd (run_frame_callback
                         (adapter false true (fun _ => JUndefined)) cssClasses
                         LayoutFrame opened)))
   <-> true = true).
Proof.
  assert (Hne : STACKED cssClasses <> SCROLLABLE cssClasses) by discriminate.
  split; [exact Hne|].
  exact (proj1 (proj2
           (layout_sets_exactly_its_markers false true (fun _ => JUndefined)
              cssClasses opened Hne))).
Defined.

Lemma close_twice_reports_the_last_action_witness :
  reaches accepting opened /\
  Z.max 0 (DIALOG_ANIMATION_CLOSE_TIME_MS numbers) <= 75 /\
  timers
    (host (snd (elapse_on accepting 75
                  (snd (close_on accepting (JStr "cancel")
                          (snd (close_on accepting (JStr "accept") opened)))))))
  = [].
Proof.
  assert (H : Z.max 0 (DIALOG_ANIMATION_CLOSE_TIME_MS numbers) <= 75)
    by (vm_compute; discriminate).
  split; [exact reachable_opened|]. split; [exact H|].
  exact (proj1 (proj2
           (close_twice_reports_the_last_action accepting cssClasses numbers
              strings (JStr "accept") (JStr "cancel") 75 opened
              reachable_opened H))).
Defined.

Lemma destroy_never_reports_closed_witness :
  reaches accepting opened /\
  isOpen_ (this opened) = true /\
  phase (trace (snd (destroy accepting cssClasses numbers strings opened))) =
    Some (Closing (JStr "destroy")).
Proof.
  split; [exact reachable_opened|]. split; [reflexivity|].
  exact (proj1 (proj2
           (destroy_never_reports_closed accepting cssClasses numbers strings
              opened reachable_opened eq_refl))).
Defined.


End MoreWitnesses.
